(** * camera_zwo_asi: the camera control layer over the ZWO ASI driver

    A shallow embedding of the C++ sources of the [zwo_asi] namespace
    (camera.cpp, camera_info.cpp, roi.cpp, the exception classes) and the
    properties of the control and capture paths.

    Conventions of the embedding.
    - A C++ [int] or [long] is a [Z].  The only arithmetic the sources do on
      them is [%] (truncating remainder, [Z.rem]) and one product, whose
      32-bit wrap-around is written out ([wrap_int]).
    - [std::string] is [string]; streaming an integer into an
      [std::ostringstream] is stdpp's decimal [pretty].
    - [std::set] is [gset]; [std::map] keyed by [std::string] is
      [gmap string], iterated in ascending key order as [std::map] does.
    - An exception object stores nothing but its [error_message_], so it is
      modelled as that string, tagged by its class.
    - The vendor driver (ASICamera2.h, not part of the sources) is a record
      of functions over an abstract device state; every call the camera
      layer makes is appended to a log, which plays the role of the driver
      call counter. *)

From Stdlib Require Import ZArith Lia Ascii String.
From stdpp Require Import base tactics option list gmap strings pretty sorting.

Local Open Scope string_scope.
Local Open Scope list_scope.
Local Open Scope Z_scope.

(** ** Vendor enumerations named by the sources *)

Inductive ASI_BOOL := ASI_FALSE | ASI_TRUE.

(** [ASI_ERROR_CODE]: the success marker, the sixteen enumerators the switch
    of [CameraException] names, and any other enumerator of the header. *)
Inductive ASI_ERROR_CODE :=
| ASI_SUCCESS
| ASI_ERROR_INVALID_INDEX
| ASI_ERROR_INVALID_ID
| ASI_ERROR_INVALID_CONTROL_TYPE
| ASI_ERROR_CAMERA_CLOSED
| ASI_ERROR_CAMERA_REMOVED
| ASI_ERROR_INVALID_PATH
| ASI_ERROR_INVALID_FILEFORMAT
| ASI_ERROR_INVALID_SIZE
| ASI_ERROR_INVALID_IMGTYPE
| ASI_ERROR_OUTOF_BOUNDARY
| ASI_ERROR_TIMEOUT
| ASI_ERROR_INVALID_SEQUENCE
| ASI_ERROR_BUFFER_TOO_SMALL
| ASI_ERROR_VIDEO_MODE_ACTIVE
| ASI_ERROR_EXPOSURE_IN_PROGRESS
| ASI_ERROR_GENERAL_ERROR
| ASI_ERROR_unnamed (enumerator : Z).

Inductive ASI_EXPOSURE_STATUS :=
| ASI_EXP_IDLE
| ASI_EXP_WORKING
| ASI_EXP_SUCCESS
| ASI_EXP_FAILED.

Inductive ASI_IMG_TYPE :=
| ASI_IMG_RAW8
| ASI_IMG_RGB24
| ASI_IMG_RAW16
| ASI_IMG_Y8
| ASI_IMG_END.

Inductive ASI_BAYER_PATTERN :=
| ASI_BAYER_RG
| ASI_BAYER_BG
| ASI_BAYER_GR
| ASI_BAYER_GB.

#[global] Instance ASI_BOOL_eq_dec : EqDecision ASI_BOOL.
Proof. solve_decision. Defined.
#[global] Instance ASI_ERROR_CODE_eq_dec : EqDecision ASI_ERROR_CODE.
Proof. solve_decision. Defined.
#[global] Instance ASI_EXPOSURE_STATUS_eq_dec : EqDecision ASI_EXPOSURE_STATUS.
Proof. solve_decision. Defined.
#[global] Instance ASI_IMG_TYPE_eq_dec : EqDecision ASI_IMG_TYPE.
Proof. solve_decision. Defined.

(** The integer value of an error enumerator, as [operator<<] prints it.
    The vendor header is not among the sources: the numbering below is the
    declaration order of a C enumeration starting at 0, and no statement of
    this development depends on it. *)
Definition error_code_value (e : ASI_ERROR_CODE) : Z :=
  match e with
  | ASI_SUCCESS => 0
  | ASI_ERROR_INVALID_INDEX => 1
  | ASI_ERROR_INVALID_ID => 2
  | ASI_ERROR_INVALID_CONTROL_TYPE => 3
  | ASI_ERROR_CAMERA_CLOSED => 4
  | ASI_ERROR_CAMERA_REMOVED => 5
  | ASI_ERROR_INVALID_PATH => 6
  | ASI_ERROR_INVALID_FILEFORMAT => 7
  | ASI_ERROR_INVALID_SIZE => 8
  | ASI_ERROR_INVALID_IMGTYPE => 9
  | ASI_ERROR_OUTOF_BOUNDARY => 10
  | ASI_ERROR_TIMEOUT => 11
  | ASI_ERROR_INVALID_SEQUENCE => 12
  | ASI_ERROR_BUFFER_TOO_SMALL => 13
  | ASI_ERROR_VIDEO_MODE_ACTIVE => 14
  | ASI_ERROR_EXPOSURE_IN_PROGRESS => 15
  | ASI_ERROR_GENERAL_ERROR => 16
  | ASI_ERROR_unnamed n => n
  end.

(** ** image_type.hpp, bayer_pattern.hpp *)

Inductive ImageType := raw8 | rgb24 | raw16 | y8.

(** The enumerator [None] is written [None_]. *)
Inductive BayerPattern := None_ | RG | BG | GR | GB.

#[global] Instance ImageType_eq_dec : EqDecision ImageType.
Proof. solve_decision. Defined.

Definition ImageType_to_nat (t : ImageType) : nat :=
  match t with raw8 => 0 | rgb24 => 1 | raw16 => 2 | y8 => 3 end%nat.

Definition ImageType_of_nat (n : nat) : option ImageType :=
  match n with
  | 0 => Some raw8 | 1 => Some rgb24 | 2 => Some raw16 | 3 => Some y8
  | _ => None
  end%nat.

#[global] Instance ImageType_countable : Countable ImageType.
Proof.
  refine (inj_countable ImageType_to_nat ImageType_of_nat _).
  intros []; reflexivity.
Defined.

(** [zwo_asi::to_string(ImageType)] *)
Definition ImageType_to_string (type : ImageType) : string :=
  match type with
  | raw8 => "raw8"
  | rgb24 => "rgb24"
  | raw16 => "raw16"
  | y8 => "y8"
  end.

(** [zwo_asi::get_native(ImageType)] *)
Definition get_native (type : ImageType) : ASI_IMG_TYPE :=
  match type with
  | raw8 => ASI_IMG_RAW8
  | raw16 => ASI_IMG_RAW16
  | rgb24 => ASI_IMG_RGB24
  | y8 => ASI_IMG_Y8
  end.

(** ** Exceptions

    Each class keeps one private [std::string error_message_]; the
    constructors below compute it exactly as the C++ constructors do. *)

Inductive exception :=
| CameraException_ (error_message_ : string)
| ControllableException_ (error_message_ : string)
| ROIException_ (error_message_ : string)
| runtime_error (what_arg : string).

#[global] Instance exception_eq_dec : EqDecision exception.
Proof. solve_decision. Defined.

Definition what (e : exception) : string :=
  match e with
  | CameraException_ m | ControllableException_ m | ROIException_ m
  | runtime_error m => m
  end.

Definition UDEV_CHECK : string :=
  "cat /sys/module/usbcore/parameters/usbfs_memory_mb".

Definition endl : string := String "010"%char EmptyString.

(** The name the switch of the constructor streams for an error code,
    closing parenthesis included; codes without a [case] stream nothing. *)
Definition error_code_case (error_code : ASI_ERROR_CODE) : string :=
  match error_code with
  | ASI_ERROR_INVALID_INDEX => "ASI_ERROR_INVALID_INDEX" +:+ ")"
  | ASI_ERROR_INVALID_ID => "ASI_ERROR_ID" +:+ ")"
  | ASI_ERROR_INVALID_CONTROL_TYPE => "ASI_ERROR_INVALID_CONTROL_TYPE" +:+ ")"
  | ASI_ERROR_CAMERA_CLOSED => "ASI_ERROR_CAMERA_CLOSED" +:+ ")"
  | ASI_ERROR_CAMERA_REMOVED => "ASI_ERROR_CAMERA_REMOVED" +:+ ")"
  | ASI_ERROR_INVALID_PATH => "ASI_ERROR_INVALID_PATH" +:+ ")"
  | ASI_ERROR_INVALID_FILEFORMAT => "ASI_ERROR_INVALID_FILEFORMAT" +:+ ")"
  | ASI_ERROR_INVALID_SIZE => "ASI_ERROR_INVALID_SIZE" +:+ ")"
  | ASI_ERROR_INVALID_IMGTYPE => "ASI_ERROR_INVALID_IMGTYPE" +:+ ")"
  | ASI_ERROR_OUTOF_BOUNDARY => "ASI_ERROR_OUTOF_BOUNDARY" +:+ ")"
  | ASI_ERROR_TIMEOUT => "ASI_ERROR_TIMEOUT" +:+ ")"
  | ASI_ERROR_INVALID_SEQUENCE => "ASI_ERROR_INVALID_SEQUENCE" +:+ ")"
  | ASI_ERROR_BUFFER_TOO_SMALL => "ASI_ERROR_BUFFER_TOO_SMALL" +:+ ")"
  | ASI_ERROR_VIDEO_MODE_ACTIVE => "ASI_ERROR_VIDEO_MODE_ACTIVE" +:+ ")"
  | ASI_ERROR_EXPOSURE_IN_PROGRESS => "ASI_ERROR_EXPOSURE_IN_PROGRESS" +:+ ")"
  | ASI_ERROR_GENERAL_ERROR => "ASI_ERROR_GENERAL_ERROR" +:+ ")"
  | ASI_SUCCESS | ASI_ERROR_unnamed _ => ""
  end.

(** [CameraException::CameraException(error_message, camera_index,
    error_code, udev)].

    [udev_created] is what [internal::create_udev_file()] returned; it is
    consulted on the [udev] branch only.  On the other branch the stream
    receives the member [error_message_], which at that point is the empty
    string its default construction left: the parameter [error_message] is
    never read. *)
Definition CameraException (udev_created : bool)
    (error_message : string) (camera_index : Z)
    (error_code : ASI_ERROR_CODE) (udev : bool) : exception :=
  if udev then
    let u :=
      "ASI Camera:" +:+ endl
      +:+ "the command '" +:+ UDEV_CHECK
      +:+ "' did not return the expected value of '200' "
      +:+ "which may indicate incorrect udev rules for the ASI camera."
      +:+ endl in
    let u :=
      if udev_created then
        u +:+ "A file '99-asi.rules' has been created in the current "
          +:+ "directory, please run in a terminal:" +:+ endl
          +:+ "  sudo install 99-asi.rules /lib/udev/rules.d" +:+ endl
          +:+ "and reconnect the camera" +:+ endl
      else
        u +:+ "There has been a failed attempt to create a '99-asi.rules "
          +:+ "file in the current directory.'" +:+ endl
          +:+ "See 'install udev rule' in:" +:+ endl
          +:+ "https://astronomy-imaging-camera.com/manuals/"
          +:+ "ASI%20Cameras%20software%20Manual%20Linux%20OSX%20EN.pdf" in
    CameraException_ u
  else
    let error_message_ := "" in
    let s :=
      "ASI Camera: "
      +:+ "(camera index: " +:+ pretty camera_index +:+ ") "
      +:+ error_message_ +:+ " "
      +:+ "(error code: " +:+ pretty (error_code_value error_code) +:+ ": " in
    CameraException_ (s +:+ error_code_case error_code).

(** The three-argument form every throw site of the camera layer uses
    ([udev] defaults to [false]). *)
Definition CameraException3 (error_message : string) (camera_index : Z)
    (error_code : ASI_ERROR_CODE) : exception :=
  CameraException false error_message camera_index error_code false.

(** [ControllableException(controllable, value, min_value, max_value)] *)
Definition ControllableException_bounds (controllable : string)
    (value min_value max_value : Z) : exception :=
  ControllableException_
    ("out of bound value for " +:+ controllable +:+ ": " +:+ pretty value
     +:+ "is not in the range " +:+ pretty min_value +:+ "; "
     +:+ pretty max_value).

(** [ControllableException(controllable, no_such_control, not_writable,
    no_set_auto)] *)
Definition ControllableException (controllable : string)
    (no_such_control not_writable no_set_auto : bool) : exception :=
  let s := "" in
  let s := if no_such_control
           then s +:+ "no such controllable: " +:+ controllable else s in
  let s := if not_writable
           then s +:+ "failed to change the value of " +:+ controllable
                  +:+ ": " +:+ "not writable" else s in
  let s := if no_set_auto
           then s +:+ "failed to change the value of " +:+ controllable
                  +:+ ": " +:+ "to auto-mode (not supported)" else s in
  ControllableException_ s.

(** [ROIException(int value, int modulo, bool width)] *)
Definition ROIException_modulo (value modulo : Z) (width : bool) : exception :=
  ROIException_
    (if width then
       "ROI width%" +:+ pretty modulo +:+ " should be 0 (not the case for "
       +:+ pretty value +:+ ")"
     else
       "ROI height%" +:+ pretty modulo +:+ " should be 0 (not the case for "
       +:+ pretty value +:+ ")").

(** [ROIException(int width, int height, int modulo, std::string
    camera_description)] *)
Definition ROIException_area (width height modulo : Z)
    (camera_description : string) : exception :=
  ROIException_
    ("for camera " +:+ camera_description +:+ ", "
     +:+ "ROI width*height%" +:+ pretty modulo
     +:+ " should be 0 (not the case for "
     +:+ pretty width +:+ "/" +:+ pretty height +:+ ")").

(** [ROIException(int bin)] *)
Definition ROIException_bin (bin : Z) : exception :=
  ROIException_ ("unsupported number of bin(s): " +:+ pretty bin).

(** [ROIException(ImageType type)] *)
Definition ROIException_type (type : ImageType) : exception :=
  ROIException_ ("unsupported image type: " +:+ ImageType_to_string type).

(** ** The outcome of a call: normal return, a thrown exception, or (for the
    polling loops only) exhaustion of the iteration budget of the model. *)

Inductive outcome (A : Type) :=
| Return (a : A)
| Throw (e : exception)
| OutOfFuel.
Arguments Return {A} a.
Arguments Throw {A} e.
Arguments OutOfFuel {A}.

(** ** camera_info.hpp: the capability catalog

    [pixel_size_um] (a [double]) and [elec_per_adu] (a [float]) are only
    copied by the sources; they are carried as their bit patterns. *)

Module CameraInfo.
Record t := {
  name : string;
  camera_id : Z;
  max_height : Z;
  max_width : Z;
  is_color : bool;
  bayer : BayerPattern;
  supported_bins : gset Z;
  supported_image_types : gset ImageType;
  pixel_size_um : Z;
  mechanical_shutter : bool;
  st4_port : bool;
  has_cooler : bool;
  is_usb3_host : bool;
  is_usb3 : bool;
  elec_per_adu : Z;
  bit_depth : Z;
  is_trigger : bool;
}.
End CameraInfo.

(** ** controllable.hpp *)

Module Controllable.
Record t := {
  name : string;
  min_value : Z;
  max_value : Z;
  default_value : Z;
  value : Z;
  is_writable : bool;
  is_auto : bool;
  supports_auto : bool;
}.
End Controllable.

(** ** roi.hpp, roi.cpp *)

(** Two's-complement wrap-around of a 32-bit [int]. *)
Definition wrap_int (z : Z) : Z := (z + 2 ^ 31) `mod` 2 ^ 32 - 2 ^ 31.

Module ROI.
Record t := {
  start_x : Z;
  start_y : Z;
  width : Z;
  height : Z;
  bins : Z;
  type : ImageType;
}.

(** [ROI::ROI()] *)
Definition default : t :=
  {| start_x := 0; start_y := 0; width := 0; height := 0; bins := 0;
     type := y8 |}.

(** [void ROI::valid(const CameraInfo& info) const] *)
Definition valid (roi : t) (info : CameraInfo.t) : outcome unit :=
  if negb (Z.rem (width roi) 8 =? 0) then
    Throw (ROIException_modulo (width roi) 8 true)
  else if negb (Z.rem (height roi) 2 =? 0) then
    Throw (ROIException_modulo (height roi) 2 false)
  else if bool_decide (CameraInfo.name info = "ASI120")
          && negb (CameraInfo.is_usb3 info)
          && negb (Z.rem (wrap_int (width roi * height roi)) 1024 =? 0) then
    Throw (ROIException_area (width roi) (height roi) 1024 "ASI120")
  else if negb (bool_decide (bins roi ∈ CameraInfo.supported_bins info)) then
    Throw (ROIException_bin (bins roi))
  else if negb (bool_decide (type roi ∈ CameraInfo.supported_image_types info))
  then
    Throw (ROIException_type (type roi))
  else Return tt.
End ROI.

(** ** The vendor structures the sources read *)

(** [ASI_CAMERA_INFO], restricted to the fields [get_camera_info] reads.
    [SupportedBins] is an [int[16]], [SupportedVideoFormat] an
    [ASI_IMG_TYPE[8]]. *)
Record ASI_CAMERA_INFO := {
  Name : string;
  CameraID : Z;
  MaxHeight : Z;
  MaxWidth : Z;
  BayerPattern_ : ASI_BAYER_PATTERN;
  SupportedBins : list Z;
  SupportedVideoFormat : list ASI_IMG_TYPE;
  PixelSize : Z;
  MechanicalShutter : ASI_BOOL;
  ST4Port : ASI_BOOL;
  IsCoolerCam : ASI_BOOL;
  IsUSB3Host : ASI_BOOL;
  IsUSB3Camera : ASI_BOOL;
  ElecPerADU : Z;
  BitDepth : Z;
  IsTriggerCam : ASI_BOOL;
}.

(** [ASI_CONTROL_CAPS]: a controllable's descriptor.  [DefaultValue] is a
    field of the vendor structure that no function of the sources reads. *)
Module ControlCaps.
Record ASI_CONTROL_CAPS := {
  Name : string;
  MaxValue : Z;
  MinValue : Z;
  DefaultValue : Z;
  IsAutoSupported : ASI_BOOL;
  IsWritable : ASI_BOOL;
  ControlType : Z;
}.
End ControlCaps.
Export ControlCaps (ASI_CONTROL_CAPS).

(** Implicit conversion of an [ASI_BOOL] (an [enum] with [ASI_FALSE = 0])
    to [bool]. *)
Definition bool_of_ASI_BOOL (b : ASI_BOOL) : bool :=
  match b with ASI_FALSE => false | ASI_TRUE => true end.

(** ** The driver

    One entry of the call log per driver function the camera layer calls,
    with the arguments passed by value. *)
Inductive DriverCall :=
| Call_ASIGetNumOfConnectedCameras
| Call_ASIGetCameraProperty (camera_index : Z)
| Call_ASIOpenCamera (camera_id : Z)
| Call_ASIInitCamera (camera_id : Z)
| Call_ASIGetNumOfControls (camera_id : Z)
| Call_ASIGetControlCaps (camera_id control_index : Z)
| Call_ASIGetControlValue (camera_id control_type : Z)
| Call_ASISetControlValue (camera_id control_type value : Z) (auto : ASI_BOOL)
| Call_ASISetROIFormat (camera_id width height bin : Z) (img_type : ASI_IMG_TYPE)
| Call_ASISetStartPos (camera_id start_x start_y : Z)
| Call_ASIGetExpStatus (camera_id : Z)
| Call_ASIStartExposure (camera_id : Z) (is_dark : ASI_BOOL)
| Call_ASIGetDataAfterExp (camera_id buffer_size : Z).

#[global] Instance DriverCall_eq_dec : EqDecision DriverCall.
Proof. solve_decision. Defined.

(** The driver functions over a device state [D].  Each returns its error
    code, what it stores through its output pointers, and the device state
    after the call.  [ASIGetDataAfterExp] receives the current content of
    the caller's buffer and returns its content after the call. *)
Record Driver (D : Type) := {
  ASIGetNumOfConnectedCameras : D → Z * D;
  ASIGetCameraProperty : Z → D → ASI_ERROR_CODE * ASI_CAMERA_INFO * D;
  ASIOpenCamera : Z → D → ASI_ERROR_CODE * D;
  ASIInitCamera : Z → D → ASI_ERROR_CODE * D;
  ASIGetNumOfControls : Z → D → ASI_ERROR_CODE * Z * D;
  ASIGetControlCaps : Z → Z → D → ASI_ERROR_CODE * ASI_CONTROL_CAPS * D;
  ASIGetControlValue : Z → Z → D → ASI_ERROR_CODE * (Z * ASI_BOOL) * D;
  ASISetControlValue : Z → Z → Z → ASI_BOOL → D → ASI_ERROR_CODE * D;
  ASISetROIFormat : Z → Z → Z → Z → ASI_IMG_TYPE → D → ASI_ERROR_CODE * D;
  ASISetStartPos : Z → Z → Z → D → ASI_ERROR_CODE * D;
  ASIGetExpStatus : Z → D → ASI_ERROR_CODE * ASI_EXPOSURE_STATUS * D;
  ASIStartExposure : Z → ASI_BOOL → D → ASI_ERROR_CODE * D;
  ASIGetDataAfterExp :
    Z → list Byte.byte → Z → D → ASI_ERROR_CODE * list Byte.byte * D;
}.
Arguments ASIGetNumOfConnectedCameras {D}.
Arguments ASIGetCameraProperty {D}.
Arguments ASIOpenCamera {D}.
Arguments ASIInitCamera {D}.
Arguments ASIGetNumOfControls {D}.
Arguments ASIGetControlCaps {D}.
Arguments ASIGetControlValue {D}.
Arguments ASISetControlValue {D}.
Arguments ASISetROIFormat {D}.
Arguments ASISetStartPos {D}.
Arguments ASIGetExpStatus {D}.
Arguments ASIStartExposure {D}.
Arguments ASIGetDataAfterExp {D}.

(** The world a call runs in: the device and the log of driver calls. *)
Record World (D : Type) := {
  device : D;
  calls : list DriverCall;
}.
Arguments device {D}.
Arguments calls {D}.
Arguments Build_World {D}.

(** [Camera]'s private members. *)
Record Camera := {
  camera_info_ : CameraInfo.t;
  camera_index_ : Z;
  controls_ : gmap string ASI_CONTROL_CAPS;
}.

(** Ascending key order, the iteration order of a [std::map] keyed by
    [std::string]. *)
Definition key_le {V : Type} (a b : string * V) : Prop :=
  String.leb a.1 b.1 = true.

#[global] Instance key_le_dec {V : Type} (a b : string * V) :
  Decision (key_le a b).
Proof. unfold key_le. solve_decision. Defined.

Definition map_iteration {V : Type} (m : gmap string V) : list (string * V) :=
  merge_sort key_le (map_to_list m).

(** ** camera.cpp, camera_info.cpp over a driver *)

Section CameraLayer.
Context {D : Type} (drv : Driver D).

(** The value an automatic [long] that is never assigned happens to hold;
    it may depend on everything the program did before. *)
Variable indeterminate : World D → Z.

(** A computation of the camera layer: it runs in a world and ends in an
    outcome and the world it leaves. *)
Definition M (A : Type) : Type := World D → outcome A * World D.

#[global] Instance M_ret : MRet M := λ A a w, (Return a, w).

#[global] Instance M_bind : MBind M := λ A B f m w,
  match m w with
  | (Return a, w') => f a w'
  | (Throw e, w') => (Throw e, w')
  | (OutOfFuel, w') => (OutOfFuel, w')
  end.

Definition throw {A : Type} (e : exception) : M A := λ w, (Throw e, w).

Definition out_of_fuel {A : Type} : M A := λ w, (OutOfFuel, w).

(** The world after one more driver call [c] that left the device in [d]. *)
Definition logged (w : World D) (c : DriverCall) (d : D) : World D :=
  {| device := d; calls := calls w ++ [c] |}.

(** A call into the driver: the device steps and the call is logged. *)
Definition driver_call {A : Type} (c : DriverCall) (f : D → A * D) : M A :=
  λ w, let '(a, d) := f (device w) in (Return a, logged w c d).

(** A call of a function of the sources that touches no device. *)
Definition pure_call {A : Type} (o : outcome A) : M A := λ w, (o, w).

(** The content of a [long] declared without an initialiser. *)
Definition uninitialised : M Z := λ w, (Return (indeterminate w), w).

(** [usleep]: time is not modelled. *)
Definition usleep (usec : Z) : M unit := mret tt.

(** *** camera_info.cpp *)

(** [static bool get_bool(ASI_BOOL value)] *)
Definition get_bool (value : ASI_BOOL) : bool :=
  if decide (value = ASI_TRUE) then true else false.

(** [int get_nb_cameras()] *)
Definition get_nb_cameras : M Z :=
  driver_call Call_ASIGetNumOfConnectedCameras
    (ASIGetNumOfConnectedCameras drv).

(** The loop over [SupportedBins]: at most 16 entries, stopping at 0. *)
Fixpoint insert_bins (a : list Z) (s : gset Z) : gset Z :=
  match a with
  | [] => s
  | b :: a' => if b =? 0 then s else insert_bins a' (s ∪ {[b]})
  end.

(** The loop over [SupportedVideoFormat]: at most 8 entries, stopping at
    [ASI_IMG_END]. *)
Fixpoint insert_image_types (a : list ASI_IMG_TYPE) (s : gset ImageType)
  : gset ImageType :=
  match a with
  | [] => s
  | f :: a' =>
      match f with
      | ASI_IMG_END => s
      | ASI_IMG_RAW8 => insert_image_types a' (s ∪ {[raw8]})
      | ASI_IMG_RAW16 => insert_image_types a' (s ∪ {[raw16]})
      | ASI_IMG_RGB24 => insert_image_types a' (s ∪ {[rgb24]})
      | ASI_IMG_Y8 => insert_image_types a' (s ∪ {[y8]})
      end
  end.

(** [CameraInfo get_camera_info(int camera_index)] *)
Definition get_camera_info (camera_index : Z) : M CameraInfo.t :=
  get_nb_cameras;;
  '(error, cam_info) ← driver_call (Call_ASIGetCameraProperty camera_index)
                         (ASIGetCameraProperty drv camera_index);
  if decide (error ≠ ASI_SUCCESS) then
    throw (CameraException3 "failed to read camera infos" camera_index error)
  else
    mret {|
      CameraInfo.name := Name cam_info;
      CameraInfo.camera_id := CameraID cam_info;
      CameraInfo.max_height := MaxHeight cam_info;
      CameraInfo.max_width := MaxWidth cam_info;
      CameraInfo.is_color := get_bool (IsCoolerCam cam_info);
      CameraInfo.bayer :=
        match BayerPattern_ cam_info with
        | ASI_BAYER_RG => RG
        | ASI_BAYER_BG => BG
        | ASI_BAYER_GR => GR
        | ASI_BAYER_GB => GB
        end;
      CameraInfo.supported_bins :=
        insert_bins (take 16 (SupportedBins cam_info)) ∅;
      CameraInfo.supported_image_types :=
        insert_image_types (take 8 (SupportedVideoFormat cam_info)) ∅;
      CameraInfo.pixel_size_um := PixelSize cam_info;
      CameraInfo.mechanical_shutter :=
        bool_of_ASI_BOOL (MechanicalShutter cam_info);
      CameraInfo.st4_port := get_bool (ST4Port cam_info);
      CameraInfo.has_cooler := get_bool (IsCoolerCam cam_info);
      CameraInfo.is_usb3_host := get_bool (IsUSB3Host cam_info);
      CameraInfo.is_usb3 := get_bool (IsUSB3Camera cam_info);
      CameraInfo.elec_per_adu := ElecPerADU cam_info;
      CameraInfo.bit_depth := BitDepth cam_info;
      CameraInfo.is_trigger := get_bool (IsTriggerCam cam_info);
    |}.

(** *** camera.cpp: construction *)

(** The [for] loop of [read_control_caps] over [control], [n] iterations
    left. *)
Fixpoint read_control_caps_loop (camera_index : Z) (n : nat) (control : Z)
    (controls : gmap string ASI_CONTROL_CAPS)
  : M (gmap string ASI_CONTROL_CAPS) :=
  match n with
  | O => mret controls
  | S n' =>
      '(error, caps) ← driver_call
                         (Call_ASIGetControlCaps camera_index control)
                         (ASIGetControlCaps drv camera_index control);
      if decide (error ≠ ASI_SUCCESS) then
        throw (CameraException3
                 ("failed to get parameter value for controllable "
                  +:+ pretty control)
                 camera_index error)
      else
        read_control_caps_loop camera_index n' (control + 1)
          (<[ControlCaps.Name caps := caps]> controls)
  end.

(** [void Camera::read_control_caps(std::map<...>& controls)] *)
Definition read_control_caps (camera_index : Z)
    (controls : gmap string ASI_CONTROL_CAPS)
  : M (gmap string ASI_CONTROL_CAPS) :=
  '(error, nb_controls) ← driver_call (Call_ASIGetNumOfControls camera_index)
                            (ASIGetNumOfControls drv camera_index);
  if decide (error ≠ ASI_SUCCESS) then
    throw (CameraException3
             "failed to read the number of controllable parameters"
             camera_index error)
  else
    read_control_caps_loop camera_index (Z.to_nat nb_controls) 0 controls.

(** [Camera::Camera(int camera_index)] *)
Definition Camera_ (camera_index : Z) : M Camera :=
  info ← get_camera_info camera_index;
  error ← driver_call (Call_ASIOpenCamera (CameraInfo.camera_id info))
            (ASIOpenCamera drv (CameraInfo.camera_id info));
  if decide (error ≠ ASI_SUCCESS) then
    throw (CameraException3 "failed to open the camera" camera_index error)
  else
    error ← driver_call (Call_ASIInitCamera (CameraInfo.camera_id info))
              (ASIInitCamera drv (CameraInfo.camera_id info));
    if decide (error ≠ ASI_SUCCESS) then
      throw (CameraException3 "failed to init the camera" camera_index error)
    else
      controls ← read_control_caps camera_index ∅;
      mret {| camera_info_ := info; camera_index_ := camera_index;
              controls_ := controls |}.

(** *** camera.cpp: controllables *)

Section Methods.
Variable this : Camera.

(** [const ASI_CONTROL_CAPS& Camera::get_control_caps(std::string) const] *)
Definition get_control_caps (control : string) : M ASI_CONTROL_CAPS :=
  match controls_ this !! control with
  | None => throw (ControllableException control true false false)
  | Some caps => mret caps
  end.

(** [Controllable Camera::get_controllable(const ASI_CONTROL_CAPS&) const].
    The local [r] is default-initialised and [r.default_value] is never
    assigned. *)
Definition get_controllable (cap : ASI_CONTROL_CAPS) : M Controllable.t :=
  let r_name := ControlCaps.Name cap in
  r_default_value ← uninitialised;
  '(error, (r_value, is_auto_)) ←
    driver_call
      (Call_ASIGetControlValue (camera_index_ this) (ControlCaps.ControlType cap))
      (ASIGetControlValue drv (camera_index_ this) (ControlCaps.ControlType cap));
  if decide (error ≠ ASI_SUCCESS) then
    throw (CameraException3
             ("failed to read values for parameter " +:+ r_name)
             (camera_index_ this) error)
  else
    mret {|
      Controllable.name := r_name;
      Controllable.value := r_value;
      Controllable.is_auto :=
        if decide (is_auto_ = ASI_TRUE) then true else false;
      Controllable.min_value := ControlCaps.MinValue cap;
      Controllable.max_value := ControlCaps.MaxValue cap;
      Controllable.supports_auto :=
        bool_of_ASI_BOOL (ControlCaps.IsAutoSupported cap);
      Controllable.is_writable :=
        bool_of_ASI_BOOL (ControlCaps.IsWritable cap);
      Controllable.default_value := r_default_value;
    |}.

(** The loop of [get_controls] over the entries of [controls_]. *)
Fixpoint get_controls_loop (entries : list (string * ASI_CONTROL_CAPS))
    (controls : gmap string Controllable.t) : M (gmap string Controllable.t) :=
  match entries with
  | [] => mret controls
  | it :: entries' =>
      c ← get_controllable it.2;
      get_controls_loop entries' (<[it.1 := c]> controls)
  end.

(** [std::map<std::string, Controllable> Camera::get_controls() const] *)
Definition get_controls : M (gmap string Controllable.t) :=
  get_controls_loop (map_iteration (controls_ this)) ∅.

(** [void Camera::set_control(std::string control, long value)] *)
Definition set_control (control : string) (value : Z) : M unit :=
  caps ← get_control_caps control;
  controllable ← get_controllable caps;
  error ← driver_call
            (Call_ASISetControlValue (camera_index_ this)
               (ControlCaps.ControlType caps) value ASI_FALSE)
            (ASISetControlValue drv (camera_index_ this)
               (ControlCaps.ControlType caps) value ASI_FALSE);
  if decide (error ≠ ASI_SUCCESS) then
    throw (CameraException3
             ("failed to set values for controllable: " +:+ control)
             (camera_index_ this) error)
  else mret tt.

(** [void Camera::set_auto(std::string control)] *)
Definition set_auto (control : string) : M unit :=
  caps ← get_control_caps control;
  controllable ← get_controllable caps;
  if negb (Controllable.supports_auto controllable) then
    throw (ControllableException control false false true)
  else
    error ← driver_call
              (Call_ASISetControlValue (camera_index_ this)
                 (ControlCaps.ControlType caps)
                 (Controllable.value controllable) ASI_TRUE)
              (ASISetControlValue drv (camera_index_ this)
                 (ControlCaps.ControlType caps)
                 (Controllable.value controllable) ASI_TRUE);
    if decide (error ≠ ASI_SUCCESS) then
      throw (CameraException3
               ("failed to set auto-mode for controllable: " +:+ control)
               (camera_index_ this) error)
    else mret tt.

(** *** camera.cpp: region of interest *)

(** [void Camera::set_roi(const ROI& roi)] *)
Definition set_roi (roi : ROI.t) : M unit :=
  pure_call (ROI.valid roi (camera_info_ this));;
  error ← driver_call
            (Call_ASISetROIFormat (camera_index_ this) (ROI.width roi)
               (ROI.height roi) (ROI.bins roi) (get_native (ROI.type roi)))
            (ASISetROIFormat drv (camera_index_ this) (ROI.width roi)
               (ROI.height roi) (ROI.bins roi) (get_native (ROI.type roi)));
  if decide (error ≠ ASI_SUCCESS) then
    throw (CameraException3 "failed to set the ROI" (camera_index_ this) error)
  else
    error ← driver_call
              (Call_ASISetStartPos (camera_index_ this)
                 (ROI.start_x roi) (ROI.start_y roi))
              (ASISetStartPos drv (camera_index_ this)
                 (ROI.start_x roi) (ROI.start_y roi));
    if decide (error ≠ ASI_SUCCESS) then
      throw (CameraException3 "failed to set the ROI starting position"
               (camera_index_ this) error)
    else mret tt.

(** The loop of [configure] over the entries of [controllables]. *)
Fixpoint configure_loop (entries : list (string * Controllable.t)) : M unit :=
  match entries with
  | [] => mret tt
  | controllable :: entries' =>
      (if Controllable.is_writable controllable.2 then
         if Controllable.is_auto controllable.2 then
           set_auto controllable.1
         else
           set_control controllable.1 (Controllable.value controllable.2)
       else mret tt);;
      configure_loop entries'
  end.

(** [void Camera::configure(ROI, std::map<std::string, Controllable>)] *)
Definition configure (roi : ROI.t)
    (controllables : gmap string Controllable.t) : M unit :=
  set_roi roi;;
  configure_loop (map_iteration controllables).

(** *** camera.cpp: exposure *)

(** [ASI_EXPOSURE_STATUS Camera::get_exposition_status() const] *)
Definition get_exposition_status : M ASI_EXPOSURE_STATUS :=
  '(error, status) ← driver_call (Call_ASIGetExpStatus (camera_index_ this))
                       (ASIGetExpStatus drv (camera_index_ this));
  if decide (error ≠ ASI_SUCCESS) then
    throw (CameraException3 "failed to read the exposure status"
             (camera_index_ this) error)
  else mret status.

(** [void Camera::check_camera_ready() const] *)
Definition check_camera_ready : M unit :=
  status ← get_exposition_status;
  if decide (status ≠ ASI_EXP_IDLE) then
    throw (runtime_error "could not take a picture: camera busy")
  else mret tt.

(** The [while] loop of [wait_for_status_change]; [fuel] bounds the number
    of iterations the model follows. *)
Fixpoint wait_loop (fuel : nat) (current_status status : ASI_EXPOSURE_STATUS)
  : M ASI_EXPOSURE_STATUS :=
  if decide (status = current_status) then
    match fuel with
    | O => out_of_fuel
    | S fuel' =>
        usleep 500;;
        status' ← get_exposition_status;
        wait_loop fuel' current_status status'
    end
  else mret status.

(** [ASI_EXPOSURE_STATUS Camera::wait_for_status_change(ASI_EXPOSURE_STATUS)
    const] *)
Definition wait_for_status_change (fuel : nat)
    (current_status : ASI_EXPOSURE_STATUS) : M ASI_EXPOSURE_STATUS :=
  status ← get_exposition_status;
  wait_loop fuel current_status status.

(** [void Camera::capture(unsigned char* buffer, int image_size)].  The
    value returned is the content of the caller's buffer when the call
    returns. *)
Definition capture (fuel : nat) (buffer : list Byte.byte) (image_size : Z)
  : M (list Byte.byte) :=
  check_camera_ready;;
  error ← driver_call (Call_ASIStartExposure (camera_index_ this) ASI_FALSE)
            (ASIStartExposure drv (camera_index_ this) ASI_FALSE);
  if decide (error ≠ ASI_SUCCESS) then
    throw (CameraException3 "failed to start exposure"
             (camera_index_ this) error)
  else
    wait_for_status_change fuel ASI_EXP_IDLE;;
    new_status ← wait_for_status_change fuel ASI_EXP_WORKING;
    if decide (new_status = ASI_EXP_FAILED) then
      throw (runtime_error "failed to get exposure")
    else
      '(error, buffer') ←
        driver_call
          (Call_ASIGetDataAfterExp (camera_index_ this) image_size)
          (ASIGetDataAfterExp drv (camera_index_ this) buffer image_size);
      if decide (error ≠ ASI_SUCCESS) then
        throw (CameraException3 "failed to read image after capture"
                 (camera_index_ this) error)
      else mret buffer'.

(** The statements of [capture] up to the second wait (the part of its
    body that ends with [new_status] assigned), as a computation of its
    own: the precondition check, the start of the exposure and the two
    polling loops. *)
Definition exposure_polling (fuel : nat) : M ASI_EXPOSURE_STATUS :=
  check_camera_ready;;
  error ← driver_call (Call_ASIStartExposure (camera_index_ this) ASI_FALSE)
            (ASIStartExposure drv (camera_index_ this) ASI_FALSE);
  if decide (error ≠ ASI_SUCCESS) then
    throw (CameraException3 "failed to start exposure"
             (camera_index_ this) error)
  else
    wait_for_status_change fuel ASI_EXP_IDLE;;
    wait_for_status_change fuel ASI_EXP_WORKING.

End Methods.
End CameraLayer.

Arguments logged {D} w c d /.
Arguments throw {D A} e _ /.
Arguments out_of_fuel {D A} _ /.
Arguments driver_call {D A} c f _ /.
Arguments pure_call {D A} o _ /.
Arguments usleep {D} usec _ /.
Arguments uninitialised {D} indeterminate _ /.

(** ** A scripted device, for running the camera layer on concrete inputs

    The device reports the statuses of [sim_statuses] one poll after the
    other (and [ASI_EXP_IDLE] once the script is exhausted), one value and
    one error code for every control read, and accepts every write. *)

Record SimDevice := {
  sim_statuses : list ASI_EXPOSURE_STATUS;
  sim_read_error : ASI_ERROR_CODE;
  sim_value : Z;
  sim_frame : list Byte.byte;
}.

Definition sim_camera_info : ASI_CAMERA_INFO :=
  {| Name := "ZWO ASI294MC Pro"; CameraID := 0;
     MaxHeight := 2822; MaxWidth := 4144;
     BayerPattern_ := ASI_BAYER_RG;
     SupportedBins := [1; 2; 3; 4; 0; 0; 0; 0; 0; 0; 0; 0; 0; 0; 0; 0];
     SupportedVideoFormat :=
       [ASI_IMG_RAW8; ASI_IMG_RGB24; ASI_IMG_RAW16; ASI_IMG_Y8; ASI_IMG_END;
        ASI_IMG_END; ASI_IMG_END; ASI_IMG_END];
     PixelSize := 0; MechanicalShutter := ASI_FALSE; ST4Port := ASI_FALSE;
     IsCoolerCam := ASI_TRUE; IsUSB3Host := ASI_TRUE;
     IsUSB3Camera := ASI_TRUE; ElecPerADU := 0; BitDepth := 14;
     IsTriggerCam := ASI_FALSE |}.

(** Descriptors in the style of the table of the README. *)
Definition caps_gain : ASI_CONTROL_CAPS :=
  {| ControlCaps.Name := "Gain"; ControlCaps.MaxValue := 570;
     ControlCaps.MinValue := 0; ControlCaps.DefaultValue := 200;
     ControlCaps.IsAutoSupported := ASI_TRUE;
     ControlCaps.IsWritable := ASI_TRUE; ControlCaps.ControlType := 0 |}.

Definition caps_flip : ASI_CONTROL_CAPS :=
  {| ControlCaps.Name := "Flip"; ControlCaps.MaxValue := 3;
     ControlCaps.MinValue := 0; ControlCaps.DefaultValue := 0;
     ControlCaps.IsAutoSupported := ASI_FALSE;
     ControlCaps.IsWritable := ASI_TRUE; ControlCaps.ControlType := 9 |}.

Definition caps_temperature : ASI_CONTROL_CAPS :=
  {| ControlCaps.Name := "Temperature"; ControlCaps.MaxValue := 1000;
     ControlCaps.MinValue := -500; ControlCaps.DefaultValue := 20;
     ControlCaps.IsAutoSupported := ASI_FALSE;
     ControlCaps.IsWritable := ASI_FALSE; ControlCaps.ControlType := 8 |}.

Definition sim_caps : list ASI_CONTROL_CAPS :=
  [caps_gain; caps_flip; caps_temperature].

Definition sim_driver : Driver SimDevice := {|
  ASIGetNumOfConnectedCameras d := (1, d);
  ASIGetCameraProperty _ d := (ASI_SUCCESS, sim_camera_info, d);
  ASIOpenCamera _ d := (ASI_SUCCESS, d);
  ASIInitCamera _ d := (ASI_SUCCESS, d);
  ASIGetNumOfControls _ d := (ASI_SUCCESS, Z.of_nat (length sim_caps), d);
  ASIGetControlCaps _ i d :=
    match sim_caps !! Z.to_nat i with
    | Some caps => (ASI_SUCCESS, caps, d)
    | None => (ASI_ERROR_INVALID_CONTROL_TYPE, caps_gain, d)
    end;
  ASIGetControlValue _ _ d := (sim_read_error d, (sim_value d, ASI_FALSE), d);
  ASISetControlValue _ _ v _ d :=
    (ASI_SUCCESS,
     {| sim_statuses := sim_statuses d; sim_read_error := sim_read_error d;
        sim_value := v; sim_frame := sim_frame d |});
  ASISetROIFormat _ _ _ _ _ d := (ASI_SUCCESS, d);
  ASISetStartPos _ _ _ d := (ASI_SUCCESS, d);
  ASIGetExpStatus _ d :=
    match sim_statuses d with
    | [] => (ASI_SUCCESS, ASI_EXP_IDLE, d)
    | s :: rest =>
        (ASI_SUCCESS, s,
         {| sim_statuses := rest; sim_read_error := sim_read_error d;
            sim_value := sim_value d; sim_frame := sim_frame d |})
    end;
  ASIStartExposure _ _ d := (ASI_SUCCESS, d);
  ASIGetDataAfterExp _ _ _ d := (ASI_SUCCESS, sim_frame d, d);
|}.

Definition sim_device (statuses : list ASI_EXPOSURE_STATUS)
    (read_error : ASI_ERROR_CODE) : SimDevice :=
  {| sim_statuses := statuses; sim_read_error := read_error;
     sim_value := 120; sim_frame := [Byte.x10; Byte.x20; Byte.x30; Byte.x40] |}.

Definition sim_world (statuses : list ASI_EXPOSURE_STATUS)
    (read_error : ASI_ERROR_CODE) : World SimDevice :=
  {| device := sim_device statuses read_error; calls := [] |}.

(** The never-assigned storage of the scripted runs holds [-1]. *)
Definition sim_indeterminate (w : World SimDevice) : Z := -1.

Definition asi294 : CameraInfo.t :=
  {| CameraInfo.name := "ZWO ASI294MC Pro"; CameraInfo.camera_id := 0;
     CameraInfo.max_height := 2822; CameraInfo.max_width := 4144;
     CameraInfo.is_color := true; CameraInfo.bayer := RG;
     CameraInfo.supported_bins := {[1; 2; 3; 4]};
     CameraInfo.supported_image_types := {[raw8; rgb24; raw16; y8]};
     CameraInfo.pixel_size_um := 0; CameraInfo.mechanical_shutter := false;
     CameraInfo.st4_port := false; CameraInfo.has_cooler := true;
     CameraInfo.is_usb3_host := true; CameraInfo.is_usb3 := true;
     CameraInfo.elec_per_adu := 0; CameraInfo.bit_depth := 14;
     CameraInfo.is_trigger := false |}.

(** A USB2 camera of the ASI120 family, under the two names used below. *)
Definition asi120 (name : string) : CameraInfo.t :=
  {| CameraInfo.name := name; CameraInfo.camera_id := 0;
     CameraInfo.max_height := 960; CameraInfo.max_width := 1280;
     CameraInfo.is_color := false; CameraInfo.bayer := RG;
     CameraInfo.supported_bins := {[1; 2]};
     CameraInfo.supported_image_types := {[raw8; raw16]};
     CameraInfo.pixel_size_um := 0; CameraInfo.mechanical_shutter := false;
     CameraInfo.st4_port := true; CameraInfo.has_cooler := false;
     CameraInfo.is_usb3_host := false; CameraInfo.is_usb3 := false;
     CameraInfo.elec_per_adu := 0; CameraInfo.bit_depth := 12;
     CameraInfo.is_trigger := false |}.

Definition sim_camera : Camera :=
  {| camera_info_ := asi294; camera_index_ := 0;
     controls_ := {[ "Gain" := caps_gain; "Flip" := caps_flip;
                     "Temperature" := caps_temperature ]} |}.

Definition roi_full (width : Z) : ROI.t :=
  {| ROI.start_x := 0; ROI.start_y := 0; ROI.width := width;
     ROI.height := 2822; ROI.bins := 1; ROI.type := raw8 |}.

Definition roi_small : ROI.t :=
  {| ROI.start_x := 0; ROI.start_y := 0; ROI.width := 8; ROI.height := 2;
     ROI.bins := 1; ROI.type := raw8 |}.

(** ** Notions the statements below use *)

(** The legacy area constraint of [ROI::valid] is violated: the catalog is
    that of the camera named [ASI120], it is not a USB3 camera, and the
    area is not a multiple of 1024. *)
Definition legacy_area_violation (roi : ROI.t) (info : CameraInfo.t) : Prop :=
  CameraInfo.name info = "ASI120" ∧ CameraInfo.is_usb3 info = false
  ∧ Z.rem (ROI.width roi * ROI.height roi) 1024 ≠ 0.

(** The controllable [c] carries the name, bounds and flags of the
    descriptor [cap]; its [default_value] is left out. *)
Definition reflects (c : Controllable.t) (cap : ASI_CONTROL_CAPS) : Prop :=
  Controllable.name c = ControlCaps.Name cap
  ∧ Controllable.min_value c = ControlCaps.MinValue cap
  ∧ Controllable.max_value c = ControlCaps.MaxValue cap
  ∧ Controllable.is_writable c = bool_of_ASI_BOOL (ControlCaps.IsWritable cap)
  ∧ Controllable.supports_auto c
    = bool_of_ASI_BOOL (ControlCaps.IsAutoSupported cap).

(** [w'] is [w] after further driver calls. *)
Definition extends {D : Type} (w w' : World D) : Prop :=
  ∃ more, calls w' = calls w ++ more.

(** A computation that only ever adds to the log. *)
Definition logs_only {D A : Type} (m : @M D A) : Prop :=
  ∀ w, extends w (m w).2.

(** ** utils.cpp: the helpers of the report

    [size_bits] is the width of [size_t] (32 or 64 on the platforms the
    README lists); a [size_t] is a [Z] reduced modulo [2 ^ size_bits]. *)

Section Utils.
Variable size_bits : Z.

Definition to_size_t (z : Z) : Z := z `mod` 2 ^ size_bits.

(** What [n] times [stream << " "] leaves in an empty stream. *)
Fixpoint spaces (n : nat) : string :=
  match n with
  | O => ""
  | S n' => " " +:+ spaces n'
  end.

(** [void append_bool(std::ostringstream& s, bool value, int target_size)]:
    the stream content after the call. *)
Definition append_bool (s : string) (value : bool) (target_size : Z) : string :=
  let s := if value then s +:+ "|*" else s +:+ "| " in
  if 2 <? target_size then s +:+ spaces (Z.to_nat (target_size - 1)) else s.

(** [int max_size(const std::vector<std::string> values)] *)
Definition max_size (values : list string) : Z :=
  fold_left
    (λ max_length value,
       Z.max (wrap_int (Z.of_nat (String.length value))) max_length)
    values 0.

(** [void fix_length(std::string& v, int target_size)]: the content of [v]
    after the call.  The comparison converts [target_size] to [size_t]; the
    difference is computed in [size_t] and converted to [int]. *)
Definition fix_length (v : string) (target_size : Z) : string :=
  if to_size_t target_size <=? Z.of_nat (String.length v) then v
  else
    let diff :=
      wrap_int (to_size_t (to_size_t target_size - Z.of_nat (String.length v)))
    in v +:+ spaces (Z.to_nat diff).

(** [void fix_lengths(std::vector<std::string>& values, int target_size)] *)
Definition fix_lengths (values : list string) (target_size : Z) : list string :=
  (λ v, fix_length v target_size) <$> values.

End Utils.

(** ** camera_mode.hpp, guide_direction.hpp and their conversions *)

Inductive CameraMode :=
| normal
| soft_edge
| rise_edge
| fall_edge
| soft_level
| high_level
| low_level.

Inductive ASI_CAMERA_MODE :=
| ASI_MODE_NORMAL
| ASI_MODE_TRIG_SOFT_EDGE
| ASI_MODE_TRIG_RISE_EDGE
| ASI_MODE_TRIG_FALL_EDGE
| ASI_MODE_TRIG_SOFT_LEVEL
| ASI_MODE_TRIG_HIGH_LEVEL
| ASI_MODE_TRIG_LOW_LEVEL.

Inductive GuideDirection := NORTH | SOUTH | EAST | WEST.

Inductive ASI_GUIDE_DIRECTION :=
| ASI_GUIDE_NORTH
| ASI_GUIDE_SOUTH
| ASI_GUIDE_EAST
| ASI_GUIDE_WEST.

(** [ASI_CAMERA_MODE get_native(CameraMode mode)] *)
Definition get_native_mode (mode : CameraMode) : ASI_CAMERA_MODE :=
  match mode with
  | normal => ASI_MODE_NORMAL
  | soft_edge => ASI_MODE_TRIG_SOFT_EDGE
  | rise_edge => ASI_MODE_TRIG_RISE_EDGE
  | fall_edge => ASI_MODE_TRIG_FALL_EDGE
  | soft_level => ASI_MODE_TRIG_SOFT_LEVEL
  | high_level => ASI_MODE_TRIG_HIGH_LEVEL
  | low_level => ASI_MODE_TRIG_LOW_LEVEL
  end.

(** [ASI_GUIDE_DIRECTION get_native(GuideDirection guide)] *)
Definition get_native_guide (guide : GuideDirection) : ASI_GUIDE_DIRECTION :=
  match guide with
  | NORTH => ASI_GUIDE_NORTH
  | SOUTH => ASI_GUIDE_SOUTH
  | WEST => ASI_GUIDE_WEST
  | EAST => ASI_GUIDE_EAST
  end.

(** ** camera.cpp: reading the region of interest back

    [ASIGetROIFormat] is not among the logged driver functions; [get_roi]
    is modelled by state passing over the device alone, the driver function
    being a parameter.  It stores width, height and bin through its
    pointers and reports the image type. *)

Section GetRoi.
Context {D : Type}.
Variable ASIGetROIFormat :
  Z → D → ASI_ERROR_CODE * (Z * Z * Z * ASI_IMG_TYPE) * D.

(** [ROI Camera::get_roi() const].  The local [roi] is built by [ROI::ROI()]
    and the switch has no case for [ASI_IMG_END]. *)
Definition get_roi (this : Camera) (d : D) : outcome ROI.t * D :=
  let roi := ROI.default in
  let '(error, (roi_width, roi_height, roi_bins, type), d') :=
    ASIGetROIFormat (camera_index_ this) d in
  if decide (error ≠ ASI_SUCCESS) then
    (Throw (CameraException3 "failed to read the current ROI"
              (camera_index_ this) error), d')
  else
    (Return {|
       ROI.start_x := ROI.start_x roi;
       ROI.start_y := ROI.start_y roi;
       ROI.width := roi_width;
       ROI.height := roi_height;
       ROI.bins := roi_bins;
       ROI.type :=
         match type with
         | ASI_IMG_RAW8 => raw8
         | ASI_IMG_Y8 => y8
         | ASI_IMG_RGB24 => rgb24
         | ASI_IMG_RAW16 => raw16
         | ASI_IMG_END => ROI.type roi
         end |}, d').

End GetRoi.

(** ** Further notions the statements use *)

(** The entries of an array that come before the first [sentinel]. *)
Fixpoint before {A : Type} `{EqDecision A} (sentinel : A) (l : list A)
  : list A :=
  match l with
  | [] => []
  | x :: l' => if decide (x = sentinel) then [] else x :: before sentinel l'
  end.

(** [w'] is [w] after further driver calls, all of which satisfy [P]. *)
Definition extends_by {D : Type} (P : DriverCall → Prop) (w w' : World D)
  : Prop :=
  ∃ more, calls w' = calls w ++ more ∧ Forall P more.

(** A computation whose driver calls all satisfy [P], whatever its
    outcome. *)
Definition calls_only {D A : Type} (P : DriverCall → Prop) (m : @M D A)
  : Prop :=
  ∀ w, extends_by P w (m w).2.

(** The driver calls of an exposure on camera [id] with a buffer of
    [size] bytes. *)
Definition exposure_call (id size : Z) (c : DriverCall) : Prop :=
  c = Call_ASIGetExpStatus id
  ∨ c = Call_ASIStartExposure id ASI_FALSE
  ∨ c = Call_ASIGetDataAfterExp id size.

(** A read of the value of some control of camera [id]. *)
Definition control_read (id : Z) (c : DriverCall) : Prop :=
  ∃ control_type, c = Call_ASIGetControlValue id control_type.

(** Every key of the registry is the name of its descriptor. *)
Definition keyed_by_name (controls : gmap string ASI_CONTROL_CAPS) : Prop :=
  ∀ k caps, controls !! k = Some caps → ControlCaps.Name caps = k.

Section Polling.
Context {D : Type} (drv : Driver D).

(** Polled from device [d], camera [id] reports [current] [k] times, every
    poll succeeding, and then the status [s ≠ current], which leaves the
    device in [d']. *)
Inductive polls_leave (id : Z) (current : ASI_EXPOSURE_STATUS)
  : nat → D → ASI_EXPOSURE_STATUS → D → Prop :=
| polls_leave_now d s d' :
    ASIGetExpStatus drv id d = (ASI_SUCCESS, s, d') → s ≠ current →
    polls_leave id current 0 d s d'
| polls_leave_later k d d1 s d' :
    ASIGetExpStatus drv id d = (ASI_SUCCESS, current, d1) →
    polls_leave id current k d1 s d' →
    polls_leave id current (S k) d s d'.

End Polling.

(** What the scripted device makes of its three descriptors when read. *)
Definition sim_controllable (cap : ASI_CONTROL_CAPS) : Controllable.t :=
  {| Controllable.name := ControlCaps.Name cap;
     Controllable.min_value := ControlCaps.MinValue cap;
     Controllable.max_value := ControlCaps.MaxValue cap;
     Controllable.default_value := -1;
     Controllable.value := 120;
     Controllable.is_writable := bool_of_ASI_BOOL (ControlCaps.IsWritable cap);
     Controllable.is_auto := false;
     Controllable.supports_auto :=
       bool_of_ASI_BOOL (ControlCaps.IsAutoSupported cap) |}.

Definition sim_controls : gmap string Controllable.t :=
  {[ "Gain" := sim_controllable caps_gain;
     "Flip" := sim_controllable caps_flip;
     "Temperature" := sim_controllable caps_temperature ]}.

Definition sim_controls_read_only : gmap string Controllable.t :=
  {[ "Temperature" := sim_controllable caps_temperature ]}.

(** The scripted driver, but for the opening, which it refuses. *)
Definition sim_driver_no_open : Driver SimDevice :=
  {| ASIGetNumOfConnectedCameras := ASIGetNumOfConnectedCameras sim_driver;
     ASIGetCameraProperty := ASIGetCameraProperty sim_driver;
     ASIOpenCamera := λ _ d, (ASI_ERROR_CAMERA_REMOVED, d);
     ASIInitCamera := ASIInitCamera sim_driver;
     ASIGetNumOfControls := ASIGetNumOfControls sim_driver;
     ASIGetControlCaps := ASIGetControlCaps sim_driver;
     ASIGetControlValue := ASIGetControlValue sim_driver;
     ASISetControlValue := ASISetControlValue sim_driver;
     ASISetROIFormat := ASISetROIFormat sim_driver;
     ASISetStartPos := ASISetStartPos sim_driver;
     ASIGetExpStatus := ASIGetExpStatus sim_driver;
     ASIStartExposure := ASIStartExposure sim_driver;
     ASIGetDataAfterExp := ASIGetDataAfterExp sim_driver |}.

(** * Properties *)

(** ** Iteration over a [std::map] *)

#[global] Instance key_le_total {V : Type} : Total (@key_le V).
Proof. intros a b. apply String.leb_total. Qed.

(** [map_iteration] visits every entry of the map once, by ascending
    key. *)
Lemma map_iteration_sorted {V : Type} (m : gmap string V) :
  Sorted key_le (map_iteration m).
Proof. apply Sorted_merge_sort, _. Qed.

Lemma map_iteration_entries {V : Type} (m : gmap string V) :
  map_iteration m ≡ₚ map_to_list m.
Proof. apply merge_sort_Permutation. Qed.

Lemma map_iteration_elem_of {V : Type} (m : gmap string V) (k : string)
    (v : V) :
  (k, v) ∈ map_iteration m ↔ m !! k = Some v.
Proof. by rewrite map_iteration_entries, elem_of_map_to_list. Qed.

Lemma map_iteration_NoDup {V : Type} (m : gmap string V) :
  NoDup (map_iteration m).*1.
Proof. rewrite map_iteration_entries. apply NoDup_fst_map_to_list. Qed.

(** ** The region-of-interest validator *)

Lemma wrap_int_rem_1024 (z : Z) :
  Z.rem (wrap_int z) 1024 = 0 ↔ Z.rem z 1024 = 0.
Proof.
  rewrite !Z.rem_divide by lia. unfold wrap_int.
  rewrite (Z.mod_eq (z + 2 ^ 31) (2 ^ 32)) by lia.
  set (k := (z + 2 ^ 31) `div` 2 ^ 32).
  replace (z + 2 ^ 31 - 2 ^ 32 * k - 2 ^ 31) with (z - 1024 * (4194304 * k))
    by lia.
  split; intros [q Hq].
  - exists (q + 4194304 * k). lia.
  - exists (q - 4194304 * k). lia.
Qed.

Lemma legacy_area_test (roi : ROI.t) (info : CameraInfo.t) :
  bool_decide (CameraInfo.name info = "ASI120")
  && negb (CameraInfo.is_usb3 info)
  && negb (Z.rem (wrap_int (ROI.width roi * ROI.height roi)) 1024 =? 0) = true
  ↔ legacy_area_violation roi info.
Proof.
  unfold legacy_area_violation.
  rewrite !andb_true_iff, bool_decide_eq_true, !negb_true_iff, Z.eqb_neq.
  rewrite wrap_int_rem_1024. tauto.
Qed.

(** The outcome of [ROI::valid] once the width and height tests pass. *)
Lemma valid_after_modulo (roi : ROI.t) (info : CameraInfo.t) :
  Z.rem (ROI.width roi) 8 = 0 → Z.rem (ROI.height roi) 2 = 0 →
  ROI.valid roi info =
    if bool_decide (CameraInfo.name info = "ASI120")
       && negb (CameraInfo.is_usb3 info)
       && negb (Z.rem (wrap_int (ROI.width roi * ROI.height roi)) 1024 =? 0)
    then Throw (ROIException_area (ROI.width roi) (ROI.height roi) 1024 "ASI120")
    else if negb (bool_decide (ROI.bins roi ∈ CameraInfo.supported_bins info))
    then Throw (ROIException_bin (ROI.bins roi))
    else if negb (bool_decide
                    (ROI.type roi ∈ CameraInfo.supported_image_types info))
    then Throw (ROIException_type (ROI.type roi))
    else Return tt.
Proof.
  intros Hw Hh. unfold ROI.valid. rewrite Hw, Hh. reflexivity.
Qed.

(** C2. [ROI::valid] tests, in this order and stopping at the first
    violation: width % 8, height % 2, the legacy area constraint, the bin
    against the supported bins, the image type against the supported image
    types; it returns normally when all five pass.  In particular a width
    that is not a multiple of 8 is rejected with the width reason whatever
    the other fields and the catalog are. *)
Theorem valid_checks_in_order (roi : ROI.t) (info : CameraInfo.t) :
  (Z.rem (ROI.width roi) 8 ≠ 0 →
   ROI.valid roi info = Throw (ROIException_modulo (ROI.width roi) 8 true))
  ∧ (Z.rem (ROI.width roi) 8 = 0 → Z.rem (ROI.height roi) 2 ≠ 0 →
     ROI.valid roi info = Throw (ROIException_modulo (ROI.height roi) 2 false))
  ∧ (Z.rem (ROI.width roi) 8 = 0 → Z.rem (ROI.height roi) 2 = 0 →
     legacy_area_violation roi info →
     ROI.valid roi info =
       Throw (ROIException_area (ROI.width roi) (ROI.height roi) 1024 "ASI120"))
  ∧ (Z.rem (ROI.width roi) 8 = 0 → Z.rem (ROI.height roi) 2 = 0 →
     ¬ legacy_area_violation roi info →
     ROI.bins roi ∉ CameraInfo.supported_bins info →
     ROI.valid roi info = Throw (ROIException_bin (ROI.bins roi)))
  ∧ (Z.rem (ROI.width roi) 8 = 0 → Z.rem (ROI.height roi) 2 = 0 →
     ¬ legacy_area_violation roi info →
     ROI.bins roi ∈ CameraInfo.supported_bins info →
     ROI.type roi ∉ CameraInfo.supported_image_types info →
     ROI.valid roi info = Throw (ROIException_type (ROI.type roi)))
  ∧ (Z.rem (ROI.width roi) 8 = 0 → Z.rem (ROI.height roi) 2 = 0 →
     ¬ legacy_area_violation roi info →
     ROI.bins roi ∈ CameraInfo.supported_bins info →
     ROI.type roi ∈ CameraInfo.supported_image_types info →
     ROI.valid roi info = Return tt).
Proof.
  repeat split.
  - intros Hw. unfold ROI.valid.
    destruct (Z.eqb_spec (Z.rem (ROI.width roi) 8) 0); [contradiction | done].
  - intros Hw Hh. unfold ROI.valid. rewrite Hw. simpl.
    destruct (Z.eqb_spec (Z.rem (ROI.height roi) 2) 0); [contradiction | done].
  - intros Hw Hh Hv. rewrite valid_after_modulo by done.
    apply legacy_area_test in Hv. by rewrite Hv.
  - intros Hw Hh Hv Hb. rewrite valid_after_modulo by done.
    destruct (_ && _) eqn:E; [by apply legacy_area_test in E |].
    by rewrite bool_decide_eq_false_2.
  - intros Hw Hh Hv Hb Ht. rewrite valid_after_modulo by done.
    destruct (_ && _) eqn:E; [by apply legacy_area_test in E |].
    rewrite bool_decide_eq_true_2 by done. simpl.
    by rewrite bool_decide_eq_false_2.
  - intros Hw Hh Hv Hb Ht. rewrite valid_after_modulo by done.
    destruct (_ && _) eqn:E; [by apply legacy_area_test in E |].
    rewrite bool_decide_eq_true_2 by done. simpl.
    by rewrite bool_decide_eq_true_2.
Qed.

(** The scenario of the specification: the full frame of the ASI294 is
    accepted, a width of 4145 is rejected with the width reason citing
    4145. *)
Lemma valid_checks_in_order_witness :
  ROI.valid (roi_full 4145) asi294 = Throw (ROIException_modulo 4145 8 true)
  ∧ ROI.valid (roi_full 4144) asi294 = Return tt.
Proof.
  split.
  - apply (valid_checks_in_order (roi_full 4145) asi294). vm_compute. congruence.
  - apply (valid_checks_in_order (roi_full 4144) asi294).
    + reflexivity.
    + reflexivity.
    + intros (H & _). vm_compute in H. congruence.
    + vm_compute. reflexivity.
    + vm_compute. reflexivity.
Defined.

(** The four constructors of [ROIException] produce different messages:
    only the area constructor starts with "for camera". *)
Lemma area_message_distinct (width height modulo : Z) (d : string) :
  (∀ v m b, ROIException_modulo v m b ≠ ROIException_area width height modulo d)
  ∧ (∀ b, ROIException_bin b ≠ ROIException_area width height modulo d)
  ∧ (∀ t, ROIException_type t ≠ ROIException_area width height modulo d).
Proof.
  unfold ROIException_modulo, ROIException_area, ROIException_bin,
    ROIException_type.
  repeat split.
  - intros v m []; simpl; discriminate.
  - intros b; simpl; discriminate.
  - intros t; simpl; discriminate.
Qed.

(** C6, as the code has it.  The legacy constraint applies to the catalog
    whose name is exactly "ASI120" and whose USB3 flag is false: there,
    once the width and height tests pass, an area that is not a multiple of
    1024 is rejected with the area reason.  A catalog with any other name,
    a USB3 camera, or an area that is a multiple of 1024 never meets the
    area reason. *)
Theorem valid_legacy_area_exact_name (roi : ROI.t) (info : CameraInfo.t) :
  (CameraInfo.name info = "ASI120" → CameraInfo.is_usb3 info = false →
   Z.rem (ROI.width roi) 8 = 0 → Z.rem (ROI.height roi) 2 = 0 →
   Z.rem (ROI.width roi * ROI.height roi) 1024 ≠ 0 →
   ROI.valid roi info =
     Throw (ROIException_area (ROI.width roi) (ROI.height roi) 1024 "ASI120"))
  ∧ (CameraInfo.name info ≠ "ASI120" ∨ CameraInfo.is_usb3 info = true
     ∨ Z.rem (ROI.width roi * ROI.height roi) 1024 = 0 →
     ∀ width height modulo d,
       ROI.valid roi info ≠ Throw (ROIException_area width height modulo d)).
Proof.
  split.
  - intros Hn Hu Hw Hh Ha. rewrite valid_after_modulo by done.
    assert (legacy_area_violation roi info) as Hv by done.
    apply legacy_area_test in Hv. by rewrite Hv.
  - intros Hex width height modulo d.
    destruct (area_message_distinct width height modulo d) as (Hm & Hb & Ht).
    assert (¬ legacy_area_violation roi info) as Hv.
    { intros (Hn & Hu & Ha). destruct Hex as [? | [? | ?]]; congruence. }
    apply (not_iff_compat (legacy_area_test roi info)) in Hv.
    apply not_true_is_false in Hv.
    unfold ROI.valid. rewrite Hv.
    repeat match goal with
           | |- context [if ?b then _ else _] => destruct b
           end; try discriminate; intros [= E]; revert E;
      first [apply Hm | apply Hb | apply Ht].
Qed.

(** On a USB2 camera named "ASI120" a region of 8 x 2 pixels is rejected
    with the area reason; on the USB3 ASI294 it never is. *)
Lemma valid_legacy_area_exact_name_witness :
  ROI.valid roi_small (asi120 "ASI120") = Throw (ROIException_area 8 2 1024 "ASI120")
  ∧ ROI.valid roi_small asi294 ≠ Throw (ROIException_area 8 2 1024 "ASI120").
Proof.
  split.
  - apply (valid_legacy_area_exact_name roi_small (asi120 "ASI120"));
      vm_compute; congruence.
  - apply (valid_legacy_area_exact_name roi_small asi294).
    right. left. reflexivity.
Defined.

(** C6 as stated fails: the name "ASI120MM" begins with the legacy
    identifier, the camera is not USB3 and the area 16 is not a multiple of
    1024, yet the region is accepted. *)
Lemma valid_legacy_prefix_counterexample :
  String.prefix "ASI120" (CameraInfo.name (asi120 "ASI120MM")) = true
  ∧ CameraInfo.is_usb3 (asi120 "ASI120MM") = false
  ∧ Z.rem (ROI.width roi_small * ROI.height roi_small) 1024 ≠ 0
  ∧ ROI.valid roi_small (asi120 "ASI120MM") = Return tt.
Proof. vm_compute. repeat split; congruence. Qed.

(** ** The error record *)

(** C9 (the code departs from it).  The message [CameraException] holds
    does not depend on the [error_message] it was constructed with: the
    constructor streams its own, still empty, member instead.  The error
    raised when opening camera 0 fails shows it: two spaces stand where
    "failed to open the camera" was to appear. *)
Theorem CameraException_discards_error_message :
  (∀ udev_created m1 m2 camera_index error_code udev,
     CameraException udev_created m1 camera_index error_code udev
     = CameraException udev_created m2 camera_index error_code udev)
  ∧ what (CameraException3 "failed to open the camera" 0 ASI_ERROR_INVALID_INDEX)
    = "ASI Camera: (camera index: 0)  (error code: 1: ASI_ERROR_INVALID_INDEX)".
Proof. split; [intros; reflexivity | vm_compute; reflexivity]. Qed.

(** ** The camera layer over an arbitrary driver *)

Section CameraLayerProperties.
Context {D : Type} (drv : Driver D) (indeterminate : World D → Z).

Lemma extends_refl (w : World D) : extends w w.
Proof. exists []. by rewrite app_nil_r. Qed.

Lemma extends_trans (w1 w2 w3 : World D) :
  extends w1 w2 → extends w2 w3 → extends w1 w3.
Proof.
  intros [k1 H1] [k2 H2]. exists (k1 ++ k2). by rewrite H2, H1, app_assoc.
Qed.

Lemma extends_logged (w : World D) (c : DriverCall) (d : D) :
  extends w (logged w c d).
Proof. by exists [c]. Qed.

Lemma logs_only_bind {A B : Type} (m : @M D A) (f : A → @M D B) :
  logs_only m → (∀ a, logs_only (f a)) → logs_only (m ≫= f).
Proof.
  intros Hm Hf w. unfold mbind, M_bind. specialize (Hm w).
  destruct (m w) as [[a | e |] w']; simpl in *; try done.
  eapply extends_trans; [exact Hm | apply Hf].
Qed.

Lemma logs_only_ret {A : Type} (a : A) : logs_only (mret a : @M D A).
Proof. intros w. apply extends_refl. Qed.

Lemma logs_only_throw {A : Type} (e : exception) : logs_only (@throw D A e).
Proof. intros w. apply extends_refl. Qed.

Lemma logs_only_driver_call {A : Type} (c : DriverCall) (f : D → A * D) :
  logs_only (driver_call c f).
Proof. intros w. simpl. destruct (f (device w)). apply extends_logged. Qed.

Lemma logs_only_get_exposition_status (this : Camera) :
  logs_only (get_exposition_status drv this).
Proof.
  apply logs_only_bind; [apply logs_only_driver_call |].
  intros [e s]. case_decide; [apply logs_only_throw | apply logs_only_ret].
Qed.

Lemma logs_only_wait_loop (this : Camera) (fuel : nat)
    (current status : ASI_EXPOSURE_STATUS) :
  logs_only (wait_loop drv this fuel current status).
Proof.
  revert status. induction fuel as [| fuel IH]; intros status; simpl;
    case_decide; try apply logs_only_ret.
  - intros w. apply extends_refl.
  - apply logs_only_bind; [apply logs_only_ret | intros _].
    apply logs_only_bind; [apply logs_only_get_exposition_status | done].
Qed.

Lemma logs_only_wait_for_status_change (this : Camera) (fuel : nat)
    (current : ASI_EXPOSURE_STATUS) :
  logs_only (wait_for_status_change drv this fuel current).
Proof.
  apply logs_only_bind; [apply logs_only_get_exposition_status |].
  intros s. apply logs_only_wait_loop.
Qed.

(** *** Region of interest *)

(** C3. [set_roi] validates first.  When [ROI::valid] throws, the
    exception is passed on and the world is untouched: no driver call, same
    device state.  Only when it returns is the format (width, height, bin,
    image type) sent, and only when the driver accepts it is the start
    position sent: two calls in that order, each failing on its own. *)
Theorem set_roi_validates_before_any_write (this : Camera) (roi : ROI.t)
    (w : World D) :
  (∀ e, ROI.valid roi (camera_info_ this) = Throw e →
        set_roi drv this roi w = (Throw e, w))
  ∧ (ROI.valid roi (camera_info_ this) = Return tt →
     ∀ e1 d1,
       ASISetROIFormat drv (camera_index_ this) (ROI.width roi)
         (ROI.height roi) (ROI.bins roi) (get_native (ROI.type roi))
         (device w) = (e1, d1) →
       (e1 ≠ ASI_SUCCESS →
        set_roi drv this roi w =
          (Throw (CameraException3 "failed to set the ROI"
                    (camera_index_ this) e1),
           logged w (Call_ASISetROIFormat (camera_index_ this) (ROI.width roi)
                       (ROI.height roi) (ROI.bins roi)
                       (get_native (ROI.type roi))) d1))
       ∧ (e1 = ASI_SUCCESS →
          ∀ e2 d2,
            ASISetStartPos drv (camera_index_ this) (ROI.start_x roi)
              (ROI.start_y roi) d1 = (e2, d2) →
            set_roi drv this roi w =
              (if decide (e2 = ASI_SUCCESS) then Return tt
               else Throw (CameraException3
                             "failed to set the ROI starting position"
                             (camera_index_ this) e2),
               logged
                 (logged w (Call_ASISetROIFormat (camera_index_ this)
                              (ROI.width roi) (ROI.height roi) (ROI.bins roi)
                              (get_native (ROI.type roi))) d1)
                 (Call_ASISetStartPos (camera_index_ this) (ROI.start_x roi)
                    (ROI.start_y roi)) d2))).
Proof.
  split.
  - intros e Hv. unfold set_roi, mbind, M_bind. simpl. by rewrite Hv.
  - intros Hv e1 d1 H1. unfold set_roi, mbind, M_bind. simpl.
    rewrite Hv, H1. split.
    + intros He1. by rewrite decide_True.
    + intros ->. rewrite decide_False by auto. simpl.
      intros e2 d2 H2. rewrite H2. simpl.
      destruct (decide (e2 = ASI_SUCCESS)) as [-> | He2].
      * by rewrite decide_False by auto.
      * by rewrite decide_True.
Qed.

(** *** Exposure *)

(** C4. [capture] first polls the exposure status, whatever comes next:
    the log of every run continues with that poll.  When the poll reports a
    status other than idle, [capture] throws the busy error at once: the
    poll is the only driver call made, so the exposure is not started and
    nothing is waited for. *)
Theorem capture_busy_fails_without_start (this : Camera) (fuel : nat)
    (buffer : list Byte.byte) (image_size : Z) (w : World D) :
  ∀ e status d,
    ASIGetExpStatus drv (camera_index_ this) (device w) = (e, status, d) →
    (e ≠ ASI_SUCCESS →
     capture drv this fuel buffer image_size w =
       (Throw (CameraException3 "failed to read the exposure status"
                 (camera_index_ this) e),
        logged w (Call_ASIGetExpStatus (camera_index_ this)) d))
    ∧ (e = ASI_SUCCESS → status ≠ ASI_EXP_IDLE →
       capture drv this fuel buffer image_size w =
         (Throw (runtime_error "could not take a picture: camera busy"),
          logged w (Call_ASIGetExpStatus (camera_index_ this)) d))
    ∧ extends (logged w (Call_ASIGetExpStatus (camera_index_ this)) d)
        (capture drv this fuel buffer image_size w).2.
Proof.
  intros e status d Hp.
  unfold capture, check_camera_ready, get_exposition_status, mbind, M_bind.
  simpl. rewrite Hp. simpl.
  destruct (decide (e ≠ ASI_SUCCESS)) as [He | He]; simpl.
  { repeat split; try done. apply extends_refl. }
  apply dec_stable in He. subst e.
  destruct (decide (status ≠ ASI_EXP_IDLE)) as [Hs | Hs]; simpl.
  { repeat split; try done. apply extends_refl. }
  repeat split; try done.
  set (w1 := {| device := d; calls := _ |}).
  destruct (ASIStartExposure drv (camera_index_ this) ASI_FALSE d)
    as [e' d'] eqn:Hstart.
  set (w2 := {| device := d'; calls := _ |}).
  assert (extends w1 w2) as H12 by (by exists [Call_ASIStartExposure (camera_index_ this) ASI_FALSE]).
  destruct (decide (e' ≠ ASI_SUCCESS)); simpl; [done |].
  pose proof (logs_only_wait_for_status_change this fuel ASI_EXP_IDLE w2) as H23.
  destruct (wait_for_status_change drv this fuel ASI_EXP_IDLE w2)
    as [[s3 | ex3 |] w3]; simpl in *;
    try (eapply extends_trans; [exact H12 | exact H23]).
  pose proof (logs_only_wait_for_status_change this fuel ASI_EXP_WORKING w3) as H34.
  destruct (wait_for_status_change drv this fuel ASI_EXP_WORKING w3)
    as [[s4 | ex4 |] w4]; simpl in *;
    try (eapply extends_trans; [exact H12 |];
         eapply extends_trans; [exact H23 | exact H34]).
  assert (extends w1 w4) as H14.
  { eapply extends_trans; [exact H12 |].
    eapply extends_trans; [exact H23 | exact H34]. }
  destruct (decide (s4 = ASI_EXP_FAILED)); simpl; [done |].
  destruct (ASIGetDataAfterExp drv (camera_index_ this) buffer image_size
              (device w4)) as [[e5 b5] d5].
  assert (extends w4 {| device := d5;
                        calls := calls w4 ++
                          [Call_ASIGetDataAfterExp (camera_index_ this) image_size] |})
    as H45 by (by eexists).
  destruct (decide (e5 ≠ ASI_SUCCESS)); simpl;
    (eapply extends_trans; [exact H14 | exact H45]).
Qed.

(** A polling loop that returns reports a status other than the one it
    waited to leave. *)
Lemma wait_loop_leaves (this : Camera) (fuel : nat)
    (current status status' : ASI_EXPOSURE_STATUS) (w w' : World D) :
  wait_loop drv this fuel current status w = (Return status', w') →
  status' ≠ current.
Proof.
  revert status w. induction fuel as [| fuel IH]; intros status w; simpl;
    case_decide; try (intros [= <- <-]; done); try done.
  unfold mbind, M_bind. simpl.
  destruct (get_exposition_status drv this w) as [[s1 | e1 |] w1]; try done.
  apply IH.
Qed.

Lemma wait_for_status_change_leaves (this : Camera) (fuel : nat)
    (current status' : ASI_EXPOSURE_STATUS) (w w' : World D) :
  wait_for_status_change drv this fuel current w = (Return status', w') →
  status' ≠ current.
Proof.
  unfold wait_for_status_change, mbind, M_bind.
  destruct (get_exposition_status drv this w) as [[s1 | e1 |] w1]; try done.
  apply wait_loop_leaves.
Qed.

(** The part of [capture] that follows the second wait. *)
Lemma capture_after_polling (this : Camera) (fuel : nat)
    (buffer : list Byte.byte) (image_size : Z) (w : World D) :
  capture drv this fuel buffer image_size w =
    (new_status ← exposure_polling drv this fuel;
     if decide (new_status = ASI_EXP_FAILED) then
       throw (runtime_error "failed to get exposure")
     else
       '(error, buffer') ←
         driver_call
           (Call_ASIGetDataAfterExp (camera_index_ this) image_size)
           (ASIGetDataAfterExp drv (camera_index_ this) buffer image_size);
       if decide (error ≠ ASI_SUCCESS) then
         throw (CameraException3 "failed to read image after capture"
                  (camera_index_ this) error)
       else mret buffer') w.
Proof.
  unfold capture, exposure_polling, mbind, M_bind.
  destruct (check_camera_ready drv this w) as [[[] | e0 |] w0]; try done.
  destruct (driver_call _ _ w0) as [[e1 | ex1 |] w1]; try done.
  destruct (decide (e1 ≠ ASI_SUCCESS)); [done |].
  destruct (wait_for_status_change drv this fuel ASI_EXP_IDLE w1)
    as [[s2 | ex2 |] w2]; try done.
Qed.

(** C5. Once the polling of [capture] has left the working state with
    status [new_status] (which is then not the working status): a failed
    status makes [capture] throw the exposure failure with no further
    driver call; any other status makes it call the data retrieval with
    the caller's buffer and byte size, and then either surface the driver's
    rejection as a [CameraException] or return with the buffer as the
    driver filled it. *)
Theorem capture_branches_on_terminal_status (this : Camera) (fuel : nat)
    (buffer : list Byte.byte) (image_size : Z) (w w1 : World D)
    (new_status : ASI_EXPOSURE_STATUS) :
  exposure_polling drv this fuel w = (Return new_status, w1) →
  new_status ≠ ASI_EXP_WORKING
  ∧ (new_status = ASI_EXP_FAILED →
     capture drv this fuel buffer image_size w =
       (Throw (runtime_error "failed to get exposure"), w1))
  ∧ (new_status ≠ ASI_EXP_FAILED →
     ∀ e buffer' d,
       ASIGetDataAfterExp drv (camera_index_ this) buffer image_size
         (device w1) = (e, buffer', d) →
       capture drv this fuel buffer image_size w =
         (if decide (e = ASI_SUCCESS) then Return buffer'
          else Throw (CameraException3 "failed to read image after capture"
                        (camera_index_ this) e),
          logged w1 (Call_ASIGetDataAfterExp (camera_index_ this) image_size)
            d)).
Proof.
  intros Hp. split; [| split].
  - revert Hp. unfold exposure_polling, mbind, M_bind.
    destruct (check_camera_ready drv this w) as [[[] | e0 |] w0]; try done.
    destruct (driver_call _ _ w0) as [[e1 | ex1 |] w1']; try done.
    destruct (decide (e1 ≠ ASI_SUCCESS)); [done |].
    destruct (wait_for_status_change drv this fuel ASI_EXP_IDLE w1')
      as [[s2 | ex2 |] w2]; try done.
    apply wait_for_status_change_leaves.
  - intros ->. rewrite capture_after_polling. unfold mbind, M_bind.
    by rewrite Hp.
  - intros Hs e buffer' d Hd. rewrite capture_after_polling.
    unfold mbind, M_bind. rewrite Hp. rewrite decide_False by done.
    simpl. rewrite Hd. simpl.
    destruct (decide (e = ASI_SUCCESS)) as [-> | He].
    + by rewrite decide_False by auto.
    + by rewrite decide_True.
Qed.

(** More iterations do not change what a polling loop returns: a result
    obtained within some budget is the result for every larger budget. *)
Lemma wait_loop_more_fuel (this : Camera) (fuel fuel' : nat)
    (current status : ASI_EXPOSURE_STATUS) (w : World D) :
  (fuel ≤ fuel')%nat →
  (wait_loop drv this fuel current status w).1 ≠ OutOfFuel →
  wait_loop drv this fuel' current status w
  = wait_loop drv this fuel current status w.
Proof.
  revert fuel' status w. induction fuel as [| fuel IH];
    intros fuel' status w Hle; simpl.
  - case_decide; [done |]. intros _. destruct fuel'; simpl; by rewrite decide_False.
  - destruct fuel' as [| fuel']; [lia |]. simpl.
    case_decide; [| done].
    unfold mbind, M_bind. simpl.
    destruct (get_exposition_status drv this w) as [[s1 | e1 |] w1]; try done.
    apply IH. lia.
Qed.

Lemma wait_for_status_change_more_fuel (this : Camera) (fuel fuel' : nat)
    (current : ASI_EXPOSURE_STATUS) (w : World D) :
  (fuel ≤ fuel')%nat →
  (wait_for_status_change drv this fuel current w).1 ≠ OutOfFuel →
  wait_for_status_change drv this fuel' current w
  = wait_for_status_change drv this fuel current w.
Proof.
  intros Hle. unfold wait_for_status_change, mbind, M_bind.
  destruct (get_exposition_status drv this w) as [[s1 | e1 |] w1]; try done.
  by apply wait_loop_more_fuel.
Qed.

(** The outcome of [capture] does not depend on the iteration budget of
    the model, once the budget suffices for the two polling loops. *)
Lemma capture_more_fuel (this : Camera) (fuel fuel' : nat)
    (buffer : list Byte.byte) (image_size : Z) (w : World D) :
  (fuel ≤ fuel')%nat →
  (capture drv this fuel buffer image_size w).1 ≠ OutOfFuel →
  capture drv this fuel' buffer image_size w
  = capture drv this fuel buffer image_size w.
Proof.
  intros Hle. unfold capture, mbind, M_bind.
  destruct (check_camera_ready drv this w) as [[[] | e0 |] w0]; try done.
  destruct (driver_call _ _ w0) as [[e1 | ex1 |] w1]; try done.
  destruct (decide (e1 ≠ ASI_SUCCESS)); [done |].
  intros Hrun.
  rewrite (wait_for_status_change_more_fuel this fuel fuel' ASI_EXP_IDLE w1 Hle).
  2: { destruct (wait_for_status_change drv this fuel ASI_EXP_IDLE w1)
         as [[s2 | ex2 |] w2]; done. }
  destruct (wait_for_status_change drv this fuel ASI_EXP_IDLE w1)
    as [[s2 | ex2 |] w2]; try done.
  rewrite (wait_for_status_change_more_fuel this fuel fuel' ASI_EXP_WORKING w2 Hle).
  2: { destruct (wait_for_status_change drv this fuel ASI_EXP_WORKING w2)
         as [[s3 | ex3 |] w3]; done. }
  done.
Qed.

(** *** Controllables *)

(** What [get_controllable] does, by the answer of the driver to its one
    read. *)
Lemma get_controllable_run (this : Camera) (cap : ASI_CONTROL_CAPS)
    (w : World D) (e : ASI_ERROR_CODE) (v : Z) (a : ASI_BOOL) (d : D) :
  ASIGetControlValue drv (camera_index_ this) (ControlCaps.ControlType cap)
    (device w) = (e, (v, a), d) →
  get_controllable drv indeterminate this cap w =
    (if decide (e = ASI_SUCCESS) then
       Return {|
         Controllable.name := ControlCaps.Name cap;
         Controllable.min_value := ControlCaps.MinValue cap;
         Controllable.max_value := ControlCaps.MaxValue cap;
         Controllable.default_value := indeterminate w;
         Controllable.value := v;
         Controllable.is_writable :=
           bool_of_ASI_BOOL (ControlCaps.IsWritable cap);
         Controllable.is_auto := bool_decide (a = ASI_TRUE);
         Controllable.supports_auto :=
           bool_of_ASI_BOOL (ControlCaps.IsAutoSupported cap) |}
     else
       Throw (CameraException3
                ("failed to read values for parameter " +:+ ControlCaps.Name cap)
                (camera_index_ this) e),
     logged w (Call_ASIGetControlValue (camera_index_ this)
                 (ControlCaps.ControlType cap)) d).
Proof.
  intros Hr. unfold get_controllable, mbind, M_bind. simpl. rewrite Hr. simpl.
  destruct (decide (e = ASI_SUCCESS)) as [-> | He].
  - rewrite decide_False by auto. simpl. by destruct a.
  - by rewrite decide_True.
Qed.

(** C7, as the code has it.  For a name of the registry, [set_auto] first
    reads the current value from the driver.  If the read is rejected, it
    throws the error of that read.  If the read succeeds and the descriptor
    does not support the auto mode, it throws the auto-mode error of
    [ControllableException] and the read stays the only driver call.  If
    the descriptor supports it, the value just read is written back with
    the auto flag set. *)
Theorem set_auto_reads_then_checks (this : Camera) (control : string)
    (w : World D) (caps : ASI_CONTROL_CAPS)
    (e : ASI_ERROR_CODE) (v : Z) (a : ASI_BOOL) (d : D) :
  controls_ this !! control = Some caps →
  ASIGetControlValue drv (camera_index_ this) (ControlCaps.ControlType caps)
    (device w) = (e, (v, a), d) →
  (e ≠ ASI_SUCCESS →
   set_auto drv indeterminate this control w =
     (Throw (CameraException3
               ("failed to read values for parameter " +:+ ControlCaps.Name caps)
               (camera_index_ this) e),
      logged w (Call_ASIGetControlValue (camera_index_ this)
                  (ControlCaps.ControlType caps)) d))
  ∧ (e = ASI_SUCCESS → ControlCaps.IsAutoSupported caps = ASI_FALSE →
     set_auto drv indeterminate this control w =
       (Throw (ControllableException control false false true),
        logged w (Call_ASIGetControlValue (camera_index_ this)
                    (ControlCaps.ControlType caps)) d))
  ∧ (e = ASI_SUCCESS → ControlCaps.IsAutoSupported caps = ASI_TRUE →
     ∀ e2 d2,
       ASISetControlValue drv (camera_index_ this)
         (ControlCaps.ControlType caps) v ASI_TRUE d = (e2, d2) →
       set_auto drv indeterminate this control w =
         (if decide (e2 = ASI_SUCCESS) then Return tt
          else Throw (CameraException3
                        ("failed to set auto-mode for controllable: "
                         +:+ control)
                        (camera_index_ this) e2),
          logged
            (logged w (Call_ASIGetControlValue (camera_index_ this)
                         (ControlCaps.ControlType caps)) d)
            (Call_ASISetControlValue (camera_index_ this)
               (ControlCaps.ControlType caps) v ASI_TRUE) d2)).
Proof.
  intros Hl Hr. unfold set_auto, get_control_caps, mbind, M_bind.
  rewrite Hl. simpl. rewrite (get_controllable_run _ _ _ _ _ _ _ Hr).
  repeat split.
  - intros He. by rewrite decide_False.
  - intros -> Hs. rewrite decide_True by done. simpl. by rewrite Hs.
  - intros -> Hs e2 d2 H2. rewrite decide_True by done. simpl.
    rewrite Hs. simpl. rewrite H2. simpl.
    destruct (decide (e2 = ASI_SUCCESS)) as [-> | He2].
    + by rewrite decide_False by auto.
    + by rewrite decide_True.
Qed.

(** The order of [set_control].  A name that is not in the registry makes
    [set_control] throw before any driver call.  For a name of the
    registry, writable or not, [set_control] begins with a driver read of
    the control's current value, so a device round trip comes before
    anything the descriptor could decide; if that read is rejected the
    error of the read is thrown and nothing is written. *)
Theorem set_control_reads_before_any_check (this : Camera) (control : string)
    (value : Z) (w : World D) :
  (controls_ this !! control = None →
   set_control drv indeterminate this control value w =
     (Throw (ControllableException control true false false), w))
  ∧ (∀ caps e v a d,
       controls_ this !! control = Some caps →
       ASIGetControlValue drv (camera_index_ this)
         (ControlCaps.ControlType caps) (device w) = (e, (v, a), d) →
       extends
         (logged w (Call_ASIGetControlValue (camera_index_ this)
                      (ControlCaps.ControlType caps)) d)
         (set_control drv indeterminate this control value w).2
       ∧ (e ≠ ASI_SUCCESS →
          set_control drv indeterminate this control value w =
            (Throw (CameraException3
                      ("failed to read values for parameter "
                       +:+ ControlCaps.Name caps)
                      (camera_index_ this) e),
             logged w (Call_ASIGetControlValue (camera_index_ this)
                         (ControlCaps.ControlType caps)) d))).
Proof.
  split.
  - intros Hl. unfold set_control, get_control_caps, mbind, M_bind.
    by rewrite Hl.
  - intros caps e v a d Hl Hr.
    unfold set_control, get_control_caps, mbind, M_bind.
    rewrite Hl. simpl. rewrite (get_controllable_run _ _ _ _ _ _ _ Hr).
    destruct (decide (e = ASI_SUCCESS)) as [-> | He].
    + split; [| done].
      simpl.
      destruct (ASISetControlValue drv (camera_index_ this)
                  (ControlCaps.ControlType caps) value ASI_FALSE d)
        as [e2 d2]. simpl.
      destruct (decide (e2 ≠ ASI_SUCCESS)); simpl; by eexists.
    + split; [apply extends_refl | done].
Qed.

(** A log that grew is not the log it grew from. *)
Lemma logged_more (w w' : World D) (c : DriverCall) (d : D) :
  extends (logged w c d) w' → calls w' ≠ calls w.
Proof.
  intros [more Hm] Heq. rewrite Heq in Hm. simpl in Hm.
  apply (f_equal length) in Hm. rewrite !length_app in Hm. simpl in Hm. lia.
Qed.

(** C1 (the code departs from it).  [set_control] never refuses a control
    because its descriptor marks it not writable.  For every name of the
    registry with such a descriptor, the outcome is never the not-writable
    error of [ControllableException], a driver call is always made, and
    once the read of the current value has succeeded the value is written
    to the device with the auto flag off, the outcome being the driver's
    verdict on that write. *)
Theorem set_control_writes_not_writable (this : Camera) (control : string)
    (value : Z) (w : World D) (caps : ASI_CONTROL_CAPS) :
  controls_ this !! control = Some caps →
  ControlCaps.IsWritable caps = ASI_FALSE →
  (set_control drv indeterminate this control value w).1
  ≠ Throw (ControllableException control false true false)
  ∧ calls (set_control drv indeterminate this control value w).2 ≠ calls w
  ∧ ∀ v a d e2 d2,
      ASIGetControlValue drv (camera_index_ this)
        (ControlCaps.ControlType caps) (device w)
      = (ASI_SUCCESS, (v, a), d) →
      ASISetControlValue drv (camera_index_ this)
        (ControlCaps.ControlType caps) value ASI_FALSE d = (e2, d2) →
      set_control drv indeterminate this control value w
      = (if decide (e2 = ASI_SUCCESS) then Return tt
         else Throw (CameraException3
                       ("failed to set values for controllable: " +:+ control)
                       (camera_index_ this) e2),
         logged
           (logged w (Call_ASIGetControlValue (camera_index_ this)
                        (ControlCaps.ControlType caps)) d)
           (Call_ASISetControlValue (camera_index_ this)
              (ControlCaps.ControlType caps) value ASI_FALSE) d2).
Proof.
  intros Hl Hnw.
  destruct (ASIGetControlValue drv (camera_index_ this)
              (ControlCaps.ControlType caps) (device w))
    as [[e [v a]] d] eqn:Hr.
  destruct (ASISetControlValue drv (camera_index_ this)
              (ControlCaps.ControlType caps) value ASI_FALSE d)
    as [e2 d2] eqn:Hw.
  assert (set_control drv indeterminate this control value w
          = if decide (e = ASI_SUCCESS) then
              (if decide (e2 = ASI_SUCCESS) then Return tt
               else Throw (CameraException3
                             ("failed to set values for controllable: "
                              +:+ control)
                             (camera_index_ this) e2),
               logged
                 (logged w (Call_ASIGetControlValue (camera_index_ this)
                              (ControlCaps.ControlType caps)) d)
                 (Call_ASISetControlValue (camera_index_ this)
                    (ControlCaps.ControlType caps) value ASI_FALSE) d2)
            else
              (Throw (CameraException3
                        ("failed to read values for parameter "
                         +:+ ControlCaps.Name caps)
                        (camera_index_ this) e),
               logged w (Call_ASIGetControlValue (camera_index_ this)
                           (ControlCaps.ControlType caps)) d)) as Hrun.
  { unfold set_control, get_control_caps, mbind, M_bind.
    rewrite Hl. simpl. rewrite (get_controllable_run _ _ _ _ _ _ _ Hr).
    destruct (decide (e = ASI_SUCCESS)) as [-> | He]; [| done].
    simpl. rewrite Hw. simpl.
    destruct (decide (e2 = ASI_SUCCESS)) as [-> | He2].
    - by rewrite decide_False by auto.
    - by rewrite decide_True. }
  split; [| split].
  - rewrite Hrun. unfold CameraException3, CameraException, ControllableException.
    destruct (decide (e = ASI_SUCCESS)); [destruct (decide (e2 = ASI_SUCCESS)) |];
      simpl; discriminate.
  - apply (logged_more w _
             (Call_ASIGetControlValue (camera_index_ this)
                (ControlCaps.ControlType caps)) d).
    rewrite Hrun. destruct (decide (e = ASI_SUCCESS)); simpl.
    + by exists [Call_ASISetControlValue (camera_index_ this)
                   (ControlCaps.ControlType caps) value ASI_FALSE].
    + apply extends_refl.
  - intros v' a' d' e2' d2' [= -> -> -> ->] Hw'.
    rewrite Hw in Hw'. injection Hw' as <- <-.
    rewrite Hrun. by rewrite decide_True.
Qed.

(** The loop of the bulk read over a driver that accepts every read: it
    returns, the names it does not visit keep their entry, and every
    visited name gets a controllable that reflects its descriptor, with a
    [default_value] taken from the unassigned storage. *)
Lemma get_controls_loop_reads_back (this : Camera)
    (entries : list (string * ASI_CONTROL_CAPS)) :
  (∀ control_type d,
     (ASIGetControlValue drv (camera_index_ this) control_type d).1.1
     = ASI_SUCCESS) →
  NoDup entries.*1 →
  ∀ (acc : gmap string Controllable.t) (w : World D),
  ∃ controls w',
    get_controls_loop drv indeterminate this entries acc w
    = (Return controls, w')
    ∧ (∀ k, k ∉ entries.*1 → controls !! k = acc !! k)
    ∧ (∀ k cap, (k, cap) ∈ entries →
         ∃ c wk, controls !! k = Some c ∧ reflects c cap
                 ∧ Controllable.default_value c = indeterminate wk).
Proof.
  intros Hok. induction entries as [| [k0 cap0] entries IH];
    intros Hnd acc w; simpl.
  - exists acc, w. split; [done |]. split; [done |].
    intros k cap Hin. by apply elem_of_nil in Hin.
  - apply NoDup_cons in Hnd as [Hk0 Hnd].
    unfold mbind, M_bind.
    destruct (ASIGetControlValue drv (camera_index_ this)
                (ControlCaps.ControlType cap0) (device w))
      as [[e [v a]] d] eqn:Hr.
    pose proof (Hok (ControlCaps.ControlType cap0) (device w)) as He.
    rewrite Hr in He. simpl in He. subst e.
    rewrite (get_controllable_run _ _ _ _ _ _ _ Hr).
    rewrite decide_True by done.
    match goal with
    | |- context [get_controls_loop _ _ _ _ (<[k0 := ?c]> acc) ?w1] =>
        destruct (IH Hnd (<[k0 := c]> acc) w1)
          as (controls & w' & Hrun & Hother & Hin); set (c0 := c) in *
    end.
    exists controls, w'. split; [exact Hrun |]. split.
    + intros k Hk. apply not_elem_of_cons in Hk as [Hne Hk].
      rewrite (Hother k Hk). by apply lookup_insert_ne.
    + intros k cap Hkc. apply elem_of_cons in Hkc as [[= -> ->] | Hkc].
      * exists c0, w. rewrite (Hother k0 Hk0), lookup_insert_eq.
        split; [done |]. split; [| done]. by repeat split.
      * by apply Hin.
Qed.

(** The bulk read over a driver that accepts every read returns a
    controllable for every name of the registry: it reflects the
    descriptor of the name, but for [default_value], which comes from the
    unassigned storage. *)
Lemma get_controls_reads_back (this : Camera) (w : World D) :
  (∀ control_type d,
     (ASIGetControlValue drv (camera_index_ this) control_type d).1.1
     = ASI_SUCCESS) →
  ∃ controls w',
    get_controls drv indeterminate this w = (Return controls, w')
    ∧ ∀ control cap,
        controls_ this !! control = Some cap →
        ∃ c wk, controls !! control = Some c ∧ reflects c cap
                ∧ Controllable.default_value c = indeterminate wk.
Proof.
  intros Hok. unfold get_controls.
  destruct (get_controls_loop_reads_back this (map_iteration (controls_ this))
              Hok (map_iteration_NoDup _) ∅ w)
    as (controls & w' & Hrun & _ & Hin).
  exists controls, w'. split; [exact Hrun |].
  intros control cap Hl. apply Hin. by apply map_iteration_elem_of.
Qed.

(** The descriptor's [DefaultValue] has no part in what [get_controllable]
    returns. *)
Lemma get_controllable_reads_no_default (this : Camera)
    (cap : ASI_CONTROL_CAPS) (default : Z) (w : World D) :
  get_controllable drv indeterminate this
    {| ControlCaps.Name := ControlCaps.Name cap;
       ControlCaps.MaxValue := ControlCaps.MaxValue cap;
       ControlCaps.MinValue := ControlCaps.MinValue cap;
       ControlCaps.DefaultValue := default;
       ControlCaps.IsAutoSupported := ControlCaps.IsAutoSupported cap;
       ControlCaps.IsWritable := ControlCaps.IsWritable cap;
       ControlCaps.ControlType := ControlCaps.ControlType cap |} w
  = get_controllable drv indeterminate this cap w.
Proof. reflexivity. Qed.

(** *** Discovery of the catalog *)

(** [get_camera_info] returns a catalog whenever the driver reports the
    properties with success. *)
Lemma get_camera_info_returns (camera_index : Z) (w : World D) :
  (ASIGetCameraProperty drv camera_index
     (ASIGetNumOfConnectedCameras drv (device w)).2).1.1 = ASI_SUCCESS →
  ∃ info w', get_camera_info drv camera_index w = (Return info, w').
Proof.
  unfold get_camera_info, get_nb_cameras, mbind, M_bind. simpl.
  destruct (ASIGetNumOfConnectedCameras drv (device w)) as [n d0]. simpl.
  destruct (ASIGetCameraProperty drv camera_index d0) as [[e ci] d1]. simpl.
  intros ->. rewrite decide_False by auto. by eexists _, _.
Qed.

(** C10. In every catalog [get_camera_info] returns, the color flag and
    the cooler flag are both what [get_bool] makes of the [IsCoolerCam]
    field of the properties the driver reported; hence the color flag
    equals the cooler flag, and is set exactly when the driver reports a
    cooled camera. *)
Theorem get_camera_info_color_is_cooler (camera_index : Z) (w w' : World D)
    (info : CameraInfo.t) :
  get_camera_info drv camera_index w = (Return info, w') →
  ∃ cam_info d,
    ASIGetCameraProperty drv camera_index
      (ASIGetNumOfConnectedCameras drv (device w)).2
    = (ASI_SUCCESS, cam_info, d)
    ∧ CameraInfo.is_color info = get_bool (IsCoolerCam cam_info)
    ∧ CameraInfo.has_cooler info = get_bool (IsCoolerCam cam_info)
    ∧ CameraInfo.is_color info = CameraInfo.has_cooler info
    ∧ (CameraInfo.is_color info = true ↔ IsCoolerCam cam_info = ASI_TRUE).
Proof.
  unfold get_camera_info, get_nb_cameras, mbind, M_bind. simpl.
  destruct (ASIGetNumOfConnectedCameras drv (device w)) as [n d0]. simpl.
  destruct (ASIGetCameraProperty drv camera_index d0) as [[e ci] d1]. simpl.
  destruct (decide (e = ASI_SUCCESS)) as [-> | He];
    [rewrite decide_False by auto | by rewrite decide_True].
  intros [= <- _]. exists ci, d1. simpl. repeat split; try done.
  - unfold get_bool. by case_decide.
  - intros ->. reflexivity.
Qed.

End CameraLayerProperties.

(** ** Runs on the scripted device *)

(** C8 (the code departs from it).  Read back through the bulk read, the
    controllable of every name of the registry has the bounds and the two
    flags of its descriptor, but [default_value] is never assigned: it
    holds whatever the storage held, not the descriptor's [DefaultValue].
    On the scripted device the descriptor of "Gain" has the default 200 and
    the controllable read back has -1. *)
Theorem get_controls_leaves_default_value_unassigned :
  (∀ (D : Type) (drv : Driver D) (indeterminate : World D → Z)
     (this : Camera) (w : World D),
     (∀ control_type d,
        (ASIGetControlValue drv (camera_index_ this) control_type d).1.1
        = ASI_SUCCESS) →
     ∃ controls w',
       get_controls drv indeterminate this w = (Return controls, w')
       ∧ ∀ control cap,
           controls_ this !! control = Some cap →
           ∃ c wk, controls !! control = Some c ∧ reflects c cap
                   ∧ Controllable.default_value c = indeterminate wk)
  ∧ ControlCaps.DefaultValue caps_gain = 200
  ∧ match (get_controls sim_driver sim_indeterminate sim_camera
             (sim_world [] ASI_SUCCESS)).1 with
    | Return controls => Controllable.default_value <$> controls !! "Gain"
    | _ => None
    end = Some (-1).
Proof.
  split; [| split; vm_compute; reflexivity].
  intros D drv indeterminate this w Hok.
  by apply get_controls_reads_back.
Qed.

(** A run of [set_control]: "Temperature" is in the registry and its
    descriptor marks it not writable, yet [set_control] returns normally
    after one driver read and one driver write, and the device holds the
    value written. *)
Lemma set_control_not_writable_counterexample :
  controls_ sim_camera !! "Temperature" = Some caps_temperature
  ∧ ControlCaps.IsWritable caps_temperature = ASI_FALSE
  ∧ set_control sim_driver sim_indeterminate sim_camera "Temperature" 5
      (sim_world [] ASI_SUCCESS)
    = (Return tt,
       {| device := {| sim_statuses := []; sim_read_error := ASI_SUCCESS;
                       sim_value := 5;
                       sim_frame := sim_frame (sim_device [] ASI_SUCCESS) |};
          calls := [Call_ASIGetControlValue 0 8;
                    Call_ASISetControlValue 0 8 5 ASI_FALSE] |}).
Proof. repeat split; vm_compute; reflexivity. Qed.

(** "Temperature" is not writable; the value 5 is written all the same
    and the call returns. *)
Lemma set_control_writes_not_writable_witness :
  (set_control sim_driver sim_indeterminate sim_camera "Temperature" 5
     (sim_world [] ASI_SUCCESS)).1
  ≠ Throw (ControllableException "Temperature" false true false)
  ∧ set_control sim_driver sim_indeterminate sim_camera "Temperature" 5
      (sim_world [] ASI_SUCCESS)
    = (Return tt,
       {| device := {| sim_statuses := []; sim_read_error := ASI_SUCCESS;
                       sim_value := 5;
                       sim_frame := sim_frame (sim_device [] ASI_SUCCESS) |};
          calls := [Call_ASIGetControlValue 0 8;
                    Call_ASISetControlValue 0 8 5 ASI_FALSE] |}).
Proof.
  pose proof (set_control_writes_not_writable sim_driver sim_indeterminate
                sim_camera "Temperature" 5 (sim_world [] ASI_SUCCESS)
                caps_temperature ltac:(vm_compute; reflexivity) eq_refl)
    as (Hnot & _ & Hrun).
  split; [exact Hnot |].
  apply (Hrun 120 ASI_FALSE (sim_device [] ASI_SUCCESS) ASI_SUCCESS);
    reflexivity.
Defined.

(** A rejected read of "Temperature" is thrown as such and nothing is
    written; an unknown name is refused with no driver call. *)
Lemma set_control_reads_before_any_check_witness :
  set_control sim_driver sim_indeterminate sim_camera "Temperature" 5
    (sim_world [] ASI_ERROR_TIMEOUT)
  = (Throw (CameraException3 "failed to read values for parameter Temperature"
              0 ASI_ERROR_TIMEOUT),
     logged (sim_world [] ASI_ERROR_TIMEOUT) (Call_ASIGetControlValue 0 8)
       (sim_device [] ASI_ERROR_TIMEOUT))
  ∧ set_control sim_driver sim_indeterminate sim_camera "Brightness" 5
      (sim_world [] ASI_SUCCESS)
    = (Throw (ControllableException "Brightness" true false false),
       sim_world [] ASI_SUCCESS).
Proof.
  split.
  - apply (proj2 (set_control_reads_before_any_check sim_driver
                    sim_indeterminate sim_camera "Temperature" 5
                    (sim_world [] ASI_ERROR_TIMEOUT))
             caps_temperature ASI_ERROR_TIMEOUT 120 ASI_FALSE
             (sim_device [] ASI_ERROR_TIMEOUT)).
    + vm_compute. reflexivity.
    + reflexivity.
    + discriminate.
  - apply (proj1 (set_control_reads_before_any_check sim_driver
                    sim_indeterminate sim_camera "Brightness" 5
                    (sim_world [] ASI_SUCCESS))).
    vm_compute. reflexivity.
Defined.

(** C7 as stated fails twice on "Flip", which does not support the auto
    mode: [set_auto] makes a driver call (the read) before it throws the
    auto-mode error, and when that read is rejected it throws the error of
    the read instead. *)
Lemma set_auto_unsupported_counterexample :
  controls_ sim_camera !! "Flip" = Some caps_flip
  ∧ ControlCaps.IsAutoSupported caps_flip = ASI_FALSE
  ∧ calls (set_auto sim_driver sim_indeterminate sim_camera "Flip"
             (sim_world [] ASI_SUCCESS)).2
    = [Call_ASIGetControlValue 0 9]
  ∧ (set_auto sim_driver sim_indeterminate sim_camera "Flip"
       (sim_world [] ASI_ERROR_TIMEOUT)).1
    = Throw (CameraException3 "failed to read values for parameter Flip" 0
               ASI_ERROR_TIMEOUT)
  ∧ CameraException3 "failed to read values for parameter Flip" 0
      ASI_ERROR_TIMEOUT
    ≠ ControllableException "Flip" false false true.
Proof. repeat split; vm_compute; (reflexivity || discriminate). Qed.

(** "Flip" is refused after the read and nothing is written; "Gain", which
    supports the auto mode, gets the value read (120) written back with
    the auto flag. *)
Lemma set_auto_reads_then_checks_witness :
  set_auto sim_driver sim_indeterminate sim_camera "Flip"
    (sim_world [] ASI_SUCCESS)
  = (Throw (ControllableException "Flip" false false true),
     logged (sim_world [] ASI_SUCCESS) (Call_ASIGetControlValue 0 9)
       (sim_device [] ASI_SUCCESS))
  ∧ set_auto sim_driver sim_indeterminate sim_camera "Gain"
      (sim_world [] ASI_SUCCESS)
    = (Return tt,
       logged
         (logged (sim_world [] ASI_SUCCESS) (Call_ASIGetControlValue 0 0)
            (sim_device [] ASI_SUCCESS))
         (Call_ASISetControlValue 0 0 120 ASI_TRUE)
         (sim_device [] ASI_SUCCESS)).
Proof.
  split.
  - apply (proj1 (proj2
             (set_auto_reads_then_checks sim_driver sim_indeterminate
                sim_camera "Flip" (sim_world [] ASI_SUCCESS) caps_flip
                ASI_SUCCESS 120 ASI_FALSE (sim_device [] ASI_SUCCESS)
                ltac:(vm_compute; reflexivity) ltac:(reflexivity))));
      reflexivity.
  - apply (proj2 (proj2
             (set_auto_reads_then_checks sim_driver sim_indeterminate
                sim_camera "Gain" (sim_world [] ASI_SUCCESS) caps_gain
                ASI_SUCCESS 120 ASI_FALSE (sim_device [] ASI_SUCCESS)
                ltac:(vm_compute; reflexivity) ltac:(reflexivity)))
             eq_refl eq_refl ASI_SUCCESS (sim_device [] ASI_SUCCESS)).
    reflexivity.
Defined.

(** A width of 4145 is refused before any driver call; the full frame is
    sent as the format and then the start position. *)
Lemma set_roi_validates_before_any_write_witness :
  set_roi sim_driver sim_camera (roi_full 4145) (sim_world [] ASI_SUCCESS)
  = (Throw (ROIException_modulo 4145 8 true), sim_world [] ASI_SUCCESS)
  ∧ set_roi sim_driver sim_camera (roi_full 4144) (sim_world [] ASI_SUCCESS)
    = (Return tt,
       {| device := sim_device [] ASI_SUCCESS;
          calls := [Call_ASISetROIFormat 0 4144 2822 1 ASI_IMG_RAW8;
                    Call_ASISetStartPos 0 0 0] |}).
Proof.
  split.
  - apply (proj1 (set_roi_validates_before_any_write sim_driver sim_camera
                    (roi_full 4145) (sim_world [] ASI_SUCCESS))).
    vm_compute. reflexivity.
  - apply (proj2 (proj2 (set_roi_validates_before_any_write sim_driver
                           sim_camera (roi_full 4144)
                           (sim_world [] ASI_SUCCESS))
                    ltac:(vm_compute; reflexivity)
                    ASI_SUCCESS (sim_device [] ASI_SUCCESS) eq_refl)
             eq_refl ASI_SUCCESS (sim_device [] ASI_SUCCESS)).
    reflexivity.
Defined.

(** While the scripted device reports a working exposure, [capture] throws
    the busy error and the poll is the only call of the log. *)
Lemma capture_busy_fails_without_start_witness :
  capture sim_driver sim_camera 5 [] 4 (sim_world [ASI_EXP_WORKING] ASI_SUCCESS)
  = (Throw (runtime_error "could not take a picture: camera busy"),
     {| device := sim_device [] ASI_SUCCESS;
        calls := [Call_ASIGetExpStatus 0] |}).
Proof.
  apply (proj1 (proj2 (capture_busy_fails_without_start sim_driver sim_camera
                         5 [] 4 (sim_world [ASI_EXP_WORKING] ASI_SUCCESS)
                         ASI_SUCCESS ASI_EXP_WORKING
                         (sim_device [] ASI_SUCCESS) eq_refl)));
    [reflexivity | discriminate].
Defined.

(** Idle, working, failed: the exposure failure, and no data retrieval in
    the log.  Idle, working, success: the frame of the device is in the
    buffer after one data retrieval of the requested size. *)
Lemma capture_branches_on_terminal_status_witness :
  capture sim_driver sim_camera 5 [] 4
    (sim_world [ASI_EXP_IDLE; ASI_EXP_WORKING; ASI_EXP_FAILED] ASI_SUCCESS)
  = (Throw (runtime_error "failed to get exposure"),
     {| device := sim_device [] ASI_SUCCESS;
        calls := [Call_ASIGetExpStatus 0; Call_ASIStartExposure 0 ASI_FALSE;
                  Call_ASIGetExpStatus 0; Call_ASIGetExpStatus 0] |})
  ∧ capture sim_driver sim_camera 5 [] 4
      (sim_world [ASI_EXP_IDLE; ASI_EXP_WORKING; ASI_EXP_WORKING;
                  ASI_EXP_SUCCESS] ASI_SUCCESS)
    = (Return (sim_frame (sim_device [] ASI_SUCCESS)),
       {| device := sim_device [] ASI_SUCCESS;
          calls := [Call_ASIGetExpStatus 0; Call_ASIStartExposure 0 ASI_FALSE;
                    Call_ASIGetExpStatus 0; Call_ASIGetExpStatus 0;
                    Call_ASIGetExpStatus 0; Call_ASIGetDataAfterExp 0 4] |}).
Proof.
  split.
  - apply (proj1 (proj2
             (capture_branches_on_terminal_status sim_driver sim_camera 5 [] 4
                (sim_world [ASI_EXP_IDLE; ASI_EXP_WORKING; ASI_EXP_FAILED]
                   ASI_SUCCESS)
                {| device := sim_device [] ASI_SUCCESS;
                   calls := [Call_ASIGetExpStatus 0;
                             Call_ASIStartExposure 0 ASI_FALSE;
                             Call_ASIGetExpStatus 0; Call_ASIGetExpStatus 0] |}
                ASI_EXP_FAILED ltac:(vm_compute; reflexivity)))).
    reflexivity.
  - apply (proj2 (proj2
             (capture_branches_on_terminal_status sim_driver sim_camera 5 [] 4
                (sim_world [ASI_EXP_IDLE; ASI_EXP_WORKING; ASI_EXP_WORKING;
                            ASI_EXP_SUCCESS] ASI_SUCCESS)
                {| device := sim_device [] ASI_SUCCESS;
                   calls := [Call_ASIGetExpStatus 0;
                             Call_ASIStartExposure 0 ASI_FALSE;
                             Call_ASIGetExpStatus 0; Call_ASIGetExpStatus 0;
                             Call_ASIGetExpStatus 0] |}
                ASI_EXP_SUCCESS ltac:(vm_compute; reflexivity)))
             ltac:(discriminate) ASI_SUCCESS
             (sim_frame (sim_device [] ASI_SUCCESS))
             (sim_device [] ASI_SUCCESS)).
    reflexivity.
Defined.

(** The catalog discovered on the scripted device: a cooled camera, and
    the color flag set with it. *)
Lemma get_camera_info_color_is_cooler_witness :
  ∃ cam_info d,
    ASIGetCameraProperty sim_driver 0
      (ASIGetNumOfConnectedCameras sim_driver
         (device (sim_world [] ASI_SUCCESS))).2
    = (ASI_SUCCESS, cam_info, d)
    ∧ CameraInfo.is_color asi294 = get_bool (IsCoolerCam cam_info)
    ∧ CameraInfo.has_cooler asi294 = get_bool (IsCoolerCam cam_info)
    ∧ CameraInfo.is_color asi294 = CameraInfo.has_cooler asi294
    ∧ (CameraInfo.is_color asi294 = true ↔ IsCoolerCam cam_info = ASI_TRUE).
Proof.
  apply (get_camera_info_color_is_cooler sim_driver 0
           (sim_world [] ASI_SUCCESS)
           {| device := sim_device [] ASI_SUCCESS;
              calls := [Call_ASIGetNumOfConnectedCameras;
                        Call_ASIGetCameraProperty 0] |} asi294).
  vm_compute. reflexivity.
Defined.

(** * Further properties of the sources *)

(** ** The validator *)

(** X1. [ROI::valid] returns normally exactly when the width is a multiple
    of 8, the height a multiple of 2, the legacy area constraint is not
    violated, the bin is a supported bin and the image type a supported
    image type. *)
Theorem valid_accepts_iff (roi : ROI.t) (info : CameraInfo.t) :
  ROI.valid roi info = Return tt
  ↔ (8 | ROI.width roi) ∧ (2 | ROI.height roi)
    ∧ ¬ legacy_area_violation roi info
    ∧ ROI.bins roi ∈ CameraInfo.supported_bins info
    ∧ ROI.type roi ∈ CameraInfo.supported_image_types info.
Proof.
  rewrite <- !Z.rem_divide by lia.
  destruct (decide (Z.rem (ROI.width roi) 8 = 0)) as [Hw | Hw].
  2: { split; [| tauto]. unfold ROI.valid.
       destruct (Z.eqb_spec (Z.rem (ROI.width roi) 8) 0); [done |].
       discriminate. }
  destruct (decide (Z.rem (ROI.height roi) 2 = 0)) as [Hh | Hh].
  2: { split; [| tauto]. unfold ROI.valid. rewrite Hw. simpl.
       destruct (Z.eqb_spec (Z.rem (ROI.height roi) 2) 0); [done |].
       discriminate. }
  rewrite valid_after_modulo by done.
  rewrite <- (legacy_area_test roi info).
  destruct (_ && _); simpl.
  { split; [discriminate | intros (_ & _ & H & _); by destruct H]. }
  case_bool_decide; simpl; [| split; [discriminate | tauto]].
  case_bool_decide; simpl; [| split; [discriminate | tauto]].
  split; [| done]. intros _. by repeat split.
Qed.

(** X2. [ROI::valid] reads neither the start position of the region nor
    the sensor size of the catalog: two regions of the same width, height,
    bin and image type get the same outcome on two catalogs of the same
    name, USB3 flag, supported bins and supported image types. *)
Theorem valid_ignores_position_and_sensor_size (roi roi' : ROI.t)
    (info info' : CameraInfo.t) :
  ROI.width roi = ROI.width roi' → ROI.height roi = ROI.height roi' →
  ROI.bins roi = ROI.bins roi' → ROI.type roi = ROI.type roi' →
  CameraInfo.name info = CameraInfo.name info' →
  CameraInfo.is_usb3 info = CameraInfo.is_usb3 info' →
  CameraInfo.supported_bins info = CameraInfo.supported_bins info' →
  CameraInfo.supported_image_types info
  = CameraInfo.supported_image_types info' →
  ROI.valid roi info = ROI.valid roi' info'.
Proof.
  intros Hw Hh Hb Ht Hn Hu Hsb Hst. unfold ROI.valid.
  by rewrite Hw, Hh, Hb, Ht, Hn, Hu, Hsb, Hst.
Qed.

(** The full frame of the ASI294 is judged the same when it starts at
    (5000, 5000), far outside the sensor. *)
Lemma valid_ignores_position_and_sensor_size_witness :
  ROI.valid {| ROI.start_x := 5000; ROI.start_y := 5000; ROI.width := 4144;
               ROI.height := 2822; ROI.bins := 1; ROI.type := raw8 |} asi294
  = ROI.valid (roi_full 4144) asi294.
Proof.
  apply (valid_ignores_position_and_sensor_size
           {| ROI.start_x := 5000; ROI.start_y := 5000; ROI.width := 4144;
              ROI.height := 2822; ROI.bins := 1; ROI.type := raw8 |}
           (roi_full 4144) asi294 asi294); reflexivity.
Defined.

(** X3. The five reasons [ROI::valid] can throw have pairwise different
    messages, whatever values they cite: the reason can be told from
    [what()]. *)
Theorem ROIException_reasons_distinct :
  (∀ v m v' m', ROIException_modulo v m true ≠ ROIException_modulo v' m' false)
  ∧ (∀ v m b w h m' d, ROIException_modulo v m b ≠ ROIException_area w h m' d)
  ∧ (∀ v m b bin, ROIException_modulo v m b ≠ ROIException_bin bin)
  ∧ (∀ v m b t, ROIException_modulo v m b ≠ ROIException_type t)
  ∧ (∀ w h m d bin, ROIException_area w h m d ≠ ROIException_bin bin)
  ∧ (∀ w h m d t, ROIException_area w h m d ≠ ROIException_type t)
  ∧ (∀ bin t, ROIException_bin bin ≠ ROIException_type t).
Proof.
  unfold ROIException_modulo, ROIException_area, ROIException_bin,
    ROIException_type.
  repeat split; intros; try destruct b; simpl; discriminate.
Qed.

(** ** The conversions to the native enumerations *)

(** X4. The three [get_native] conversions send different values to
    different native values, and an image type is never sent to the
    terminator [ASI_IMG_END] of the driver's format arrays. *)
Theorem get_native_injective :
  (∀ t t', get_native t = get_native t' → t = t')
  ∧ (∀ t, get_native t ≠ ASI_IMG_END)
  ∧ (∀ m m', get_native_mode m = get_native_mode m' → m = m')
  ∧ (∀ g g', get_native_guide g = get_native_guide g' → g = g').
Proof.
  repeat split.
  - intros [] []; simpl; congruence.
  - intros []; discriminate.
  - intros [] []; simpl; congruence.
  - intros [] []; simpl; congruence.
Qed.

(** ** Reading the region of interest back *)

(** X5. [get_roi] never asks the driver for the start position: every
    region it returns starts at (0, 0).  Width, height and bin are the
    driver's, and an image type that [set_roi] encoded with [get_native]
    is decoded back to itself. *)
Theorem get_roi_start_is_zero {D : Type}
    (ASIGetROIFormat : Z → D → ASI_ERROR_CODE * (Z * Z * Z * ASI_IMG_TYPE) * D)
    (this : Camera) (d : D) :
  (∀ roi d', get_roi ASIGetROIFormat this d = (Return roi, d') →
             ROI.start_x roi = 0 ∧ ROI.start_y roi = 0)
  ∧ (∀ w h b t d',
       ASIGetROIFormat (camera_index_ this) d
       = (ASI_SUCCESS, (w, h, b, get_native t), d') →
       get_roi ASIGetROIFormat this d
       = (Return {| ROI.start_x := 0; ROI.start_y := 0; ROI.width := w;
                    ROI.height := h; ROI.bins := b; ROI.type := t |}, d')).
Proof.
  split.
  - intros roi d'. unfold get_roi.
    destruct (ASIGetROIFormat (camera_index_ this) d)
      as [[e [[[w h] b] t]] d1].
    case_decide; [discriminate |]. by intros [= <- _].
  - intros w h b t d' Hr. unfold get_roi. rewrite Hr.
    rewrite decide_False by auto. by destruct t.
Qed.

(** ** The helpers of the report *)

Lemma append_cons (c : ascii) (a b : string) :
  String c a +:+ b = String c (a +:+ b).
Proof. reflexivity. Qed.

Lemma length_append (a b : string) :
  String.length (a +:+ b) = (String.length a + String.length b)%nat.
Proof.
  induction a as [| c a IH]; [done |].
  rewrite append_cons. simpl. by rewrite IH.
Qed.

Lemma append_empty_r (a : string) : a +:+ "" = a.
Proof.
  induction a as [| c a IH]; [done |]. by rewrite append_cons, IH.
Qed.

Lemma length_spaces (n : nat) : String.length (spaces n) = n.
Proof.
  induction n as [| n IH]; [done |].
  change (spaces (S n)) with (String " " (spaces n)). simpl. by rewrite IH.
Qed.

Lemma wrap_int_small (z : Z) : - 2 ^ 31 ≤ z < 2 ^ 31 → wrap_int z = z.
Proof. intros Hz. unfold wrap_int. rewrite Z.mod_small; lia. Qed.

Lemma to_size_t_small (size_bits z : Z) :
  32 ≤ size_bits → 0 ≤ z < 2 ^ 31 → to_size_t size_bits z = z.
Proof.
  intros Hb Hz. unfold to_size_t. apply Z.mod_small.
  assert (2 ^ 32 ≤ 2 ^ size_bits) by (apply Z.pow_le_mono_r; lia). lia.
Qed.

Lemma fix_length_spec (size_bits : Z) (v : string) (target_size : Z) :
  32 ≤ size_bits → 0 ≤ target_size < 2 ^ 31 →
  Z.of_nat (String.length v) < 2 ^ 31 →
  fix_length size_bits v target_size
  = v +:+ spaces (Z.to_nat (target_size - Z.of_nat (String.length v))).
Proof.
  intros Hb Ht Hv. unfold fix_length.
  rewrite (to_size_t_small size_bits target_size) by done.
  destruct (Z.leb_spec target_size (Z.of_nat (String.length v))) as [Hle | Hlt].
  - replace (Z.to_nat _) with 0%nat by lia. simpl. by rewrite append_empty_r.
  - rewrite to_size_t_small by (done || lia). by rewrite wrap_int_small by lia.
Qed.

Lemma max_size_fold (values : list string) (a : Z) :
  a ≤ fold_left
        (λ max_length value,
           Z.max (wrap_int (Z.of_nat (String.length value))) max_length)
        values a
  ∧ (∀ v, v ∈ values →
          wrap_int (Z.of_nat (String.length v))
          ≤ fold_left
              (λ max_length value,
                 Z.max (wrap_int (Z.of_nat (String.length value))) max_length)
              values a)
  ∧ (fold_left
       (λ max_length value,
          Z.max (wrap_int (Z.of_nat (String.length value))) max_length)
       values a = a
     ∨ ∃ v, v ∈ values
            ∧ fold_left
                (λ max_length value,
                   Z.max (wrap_int (Z.of_nat (String.length value)))
                     max_length)
                values a
              = wrap_int (Z.of_nat (String.length v))).
Proof.
  revert a. induction values as [| v0 values IH]; intros a; simpl.
  - split; [lia |]. split; [| by left]. intros v Hv. by apply elem_of_nil in Hv.
  - destruct (IH (Z.max (wrap_int (Z.of_nat (String.length v0))) a))
      as (Hge & Hall & Hatt).
    split; [lia |]. split.
    + intros v Hv. apply elem_of_cons in Hv as [-> | Hv]; [lia | by apply Hall].
    + destruct Hatt as [Heq | (v & Hv & Heq)].
      * destruct (Z.max_spec (wrap_int (Z.of_nat (String.length v0))) a)
          as [[_ Hm] | [_ Hm]].
        -- left. by rewrite Hm in *.
        -- right. exists v0. split; [apply elem_of_cons; by left |].
           by rewrite Heq.
      * right. exists v. split; [apply elem_of_cons; by right | done].
Qed.

Lemma max_size_spec (values : list string) :
  (∀ v, v ∈ values → Z.of_nat (String.length v) < 2 ^ 31) →
  (∀ v, v ∈ values → Z.of_nat (String.length v) ≤ max_size values)
  ∧ (max_size values = 0
     ∨ ∃ v, v ∈ values ∧ max_size values = Z.of_nat (String.length v)).
Proof.
  intros Hsmall. unfold max_size.
  destruct (max_size_fold values 0) as (_ & Hall & Hatt). split.
  - intros v Hv. specialize (Hall v Hv).
    rewrite wrap_int_small in Hall by (specialize (Hsmall v Hv); lia). done.
  - destruct Hatt as [Heq | (v & Hv & Heq)]; [by left |].
    right. exists v. split; [done |].
    rewrite wrap_int_small in Heq by (specialize (Hsmall v Hv); lia). done.
Qed.

(** X6. For a target size that is not negative, [fix_length] leaves a
    string that is long enough as it is and pads a shorter one with spaces
    on the right to exactly the target size. *)
Theorem fix_length_pads (size_bits : Z) (v : string) (target_size : Z) :
  32 ≤ size_bits → 0 ≤ target_size < 2 ^ 31 →
  Z.of_nat (String.length v) < 2 ^ 31 →
  fix_length size_bits v target_size
  = v +:+ spaces (Z.to_nat (target_size - Z.of_nat (String.length v)))
  ∧ Z.of_nat (String.length (fix_length size_bits v target_size))
    = Z.max (Z.of_nat (String.length v)) target_size.
Proof.
  intros Hb Ht Hv. rewrite fix_length_spec by done. split; [done |].
  rewrite length_append, length_spaces. lia.
Qed.

Lemma fix_length_pads_witness :
  fix_length 64 "Gain" 8 = "Gain    "
  ∧ fix_length 64 "Temperature" 8 = "Temperature".
Proof.
  split.
  - apply (fix_length_pads 64 "Gain" 8); simpl; lia.
  - apply (fix_length_pads 64 "Temperature" 8); simpl; lia.
Defined.

(** X7. [max_size] is the greatest length among the strings it is given:
    no string is longer, and it is the length of one of them, or 0 when
    there is none (or only empty ones). *)
Theorem max_size_greatest (values : list string) :
  (∀ v, v ∈ values → Z.of_nat (String.length v) < 2 ^ 31) →
  (∀ v, v ∈ values → Z.of_nat (String.length v) ≤ max_size values)
  ∧ (max_size values = 0
     ∨ ∃ v, v ∈ values ∧ max_size values = Z.of_nat (String.length v)).
Proof. apply max_size_spec. Qed.

Lemma max_size_greatest_witness :
  (∀ v, v ∈ ["Gain"; "Temperature"; "Flip"] →
        Z.of_nat (String.length v) ≤ max_size ["Gain"; "Temperature"; "Flip"])
  ∧ (max_size ["Gain"; "Temperature"; "Flip"] = 0
     ∨ ∃ v, v ∈ ["Gain"; "Temperature"; "Flip"]
            ∧ max_size ["Gain"; "Temperature"; "Flip"]
              = Z.of_nat (String.length v)).
Proof.
  apply (max_size_greatest ["Gain"; "Temperature"; "Flip"]).
  intros v Hv. repeat (apply elem_of_cons in Hv as [-> | Hv]); simpl; try lia.
  by apply elem_of_nil in Hv.
Defined.

(** X8. After [fix_lengths(values, max_size(values) + k)] with [k] not
    negative, every string of the vector has the same length, the greatest
    original length plus [k].  (This is about the strings of one vector;
    a header cell is padded by a [fix_length] call of its own and is not
    covered.) *)
Theorem fix_lengths_aligns (size_bits : Z) (values : list string) (k : Z) :
  32 ≤ size_bits → 0 ≤ k →
  (∀ v, v ∈ values → Z.of_nat (String.length v) + k < 2 ^ 31) →
  ∀ v', v' ∈ fix_lengths size_bits values (max_size values + k) →
        Z.of_nat (String.length v') = max_size values + k.
Proof.
  intros Hb Hk Hsmall v' Hv'. unfold fix_lengths in Hv'.
  apply list_elem_of_fmap in Hv' as (v & -> & Hv).
  destruct (max_size_spec values) as (Hall & Hatt).
  { intros u Hu. specialize (Hsmall u Hu). lia. }
  assert (0 ≤ max_size values + k < 2 ^ 31) as Ht.
  { destruct Hatt as [-> | (u & Hu & ->)].
    - specialize (Hsmall v Hv). lia.
    - specialize (Hsmall u Hu). lia. }
  rewrite fix_length_spec by (done || specialize (Hsmall v Hv); lia).
  rewrite length_append, length_spaces. specialize (Hall v Hv). lia.
Qed.

Lemma fix_lengths_aligns_witness :
  Forall (λ v', Z.of_nat (String.length v') = 15)
    (fix_lengths 64 ["Gain"; "Temperature"; "Flip"]
       (max_size ["Gain"; "Temperature"; "Flip"] + 4)).
Proof.
  apply Forall_forall.
  apply (fix_lengths_aligns 64 ["Gain"; "Temperature"; "Flip"] 4); try lia.
  intros v Hv. repeat (apply elem_of_cons in Hv as [-> | Hv]); simpl; try lia.
  by apply elem_of_nil in Hv.
Defined.

(** ** Discovery of the catalog, continued *)

Lemma elem_of_before {A : Type} `{EqDecision A} (sentinel x : A)
    (l : list A) :
  x ∈ before sentinel l
  ↔ ∃ i, l !! i = Some x ∧ ∀ j, (j ≤ i)%nat → l !! j ≠ Some sentinel.
Proof.
  induction l as [| y l IH]; simpl.
  - rewrite elem_of_nil. split; [done | by intros (i & Hi & _)].
  - case_decide as Hy.
    + subst y. rewrite elem_of_nil. split; [done |].
      intros (i & _ & Hj). by apply (Hj 0%nat); [lia |].
    + rewrite elem_of_cons, IH. split.
      * intros [-> | (i & Hi & Hj)].
        -- exists 0%nat. split; [done |]. intros j Hle.
           replace j with 0%nat by lia. simpl. congruence.
        -- exists (S i). split; [done |]. intros [| j] Hle; simpl.
           ++ congruence.
           ++ apply Hj. lia.
      * intros ([| i] & Hi & Hj); simpl in Hi.
        -- left. congruence.
        -- right. exists i. split; [done |]. intros j Hle.
           apply (Hj (S j)). lia.
Qed.

Lemma elem_of_before_take {A : Type} `{EqDecision A} (sentinel x : A)
    (n : nat) (l : list A) :
  x ∈ before sentinel (take n l)
  ↔ ∃ i, (i < n)%nat ∧ l !! i = Some x
         ∧ ∀ j, (j ≤ i)%nat → l !! j ≠ Some sentinel.
Proof.
  rewrite elem_of_before. split.
  - intros (i & Hi & Hj). apply lookup_take_Some in Hi as [Hi Hlt].
    exists i. repeat split; [done.. |]. intros j Hle.
    specialize (Hj j Hle). by rewrite lookup_take_lt in Hj by lia.
  - intros (i & Hlt & Hi & Hj). exists i. split.
    + by rewrite lookup_take_lt.
    + intros j Hle. rewrite lookup_take_lt by lia. by apply Hj.
Qed.

Lemma insert_bins_spec (a : list Z) (s : gset Z) (b : Z) :
  b ∈ insert_bins a s ↔ b ∈ s ∨ b ∈ before 0 a.
Proof.
  revert s. induction a as [| x a IH]; intros s; simpl.
  - rewrite elem_of_nil. tauto.
  - destruct (Z.eqb_spec x 0) as [-> | Hx].
    + rewrite decide_True by done. rewrite elem_of_nil. tauto.
    + rewrite decide_False by done.
      rewrite IH, elem_of_cons, elem_of_union, elem_of_singleton. tauto.
Qed.

Lemma insert_image_types_spec (a : list ASI_IMG_TYPE) (s : gset ImageType)
    (t : ImageType) :
  t ∈ insert_image_types a s
  ↔ t ∈ s ∨ get_native t ∈ before ASI_IMG_END a.
Proof.
  revert s. induction a as [| x a IH]; intros s; simpl.
  - rewrite elem_of_nil. tauto.
  - destruct x; simpl;
      rewrite ?elem_of_nil, ?IH, ?elem_of_cons, ?elem_of_union,
        ?elem_of_singleton;
      try tauto; destruct t; simpl; intuition congruence.
Qed.

Section MoreProperties.
Context {D : Type} (drv : Driver D) (indeterminate : World D → Z).

(** What [get_camera_info] returns and leaves, by the answers of the
    driver. *)
Lemma get_camera_info_run (camera_index : Z) (w : World D) (n : Z) (d0 : D)
    (e : ASI_ERROR_CODE) (cam_info : ASI_CAMERA_INFO) (d1 : D) :
  ASIGetNumOfConnectedCameras drv (device w) = (n, d0) →
  ASIGetCameraProperty drv camera_index d0 = (e, cam_info, d1) →
  ∃ o, get_camera_info drv camera_index w
       = (o, {| device := d1;
                calls := calls w ++ [Call_ASIGetNumOfConnectedCameras;
                                     Call_ASIGetCameraProperty camera_index] |})
     ∧ (e ≠ ASI_SUCCESS →
        o = Throw (CameraException3 "failed to read camera infos"
                     camera_index e))
     ∧ (e = ASI_SUCCESS →
        ∃ info, o = Return info
          ∧ CameraInfo.supported_bins info
            = insert_bins (take 16 (SupportedBins cam_info)) ∅
          ∧ CameraInfo.supported_image_types info
            = insert_image_types (take 8 (SupportedVideoFormat cam_info)) ∅).
Proof.
  intros H0 H1. unfold get_camera_info, get_nb_cameras, mbind, M_bind. simpl.
  rewrite H0. simpl. rewrite H1. simpl. rewrite <- app_assoc. simpl.
  destruct (decide (e = ASI_SUCCESS)) as [-> | He].
  - rewrite decide_False by auto. eexists. split; [done |].
    split; [done |]. intros _. eexists. by repeat split.
  - rewrite decide_True by done. eexists. split; [done |].
    split; [done | done].
Qed.

(** X9. [get_camera_info] stops reading the driver's arrays at their
    terminator: the supported bins are the entries of [SupportedBins]
    among the first 16 that come before the first 0, and the supported
    image types are those whose native value is among the first 8 entries
    of [SupportedVideoFormat] before the first [ASI_IMG_END]. *)
Theorem get_camera_info_stops_at_terminators (camera_index : Z) (w : World D)
    (n : Z) (d0 d1 : D) (cam_info : ASI_CAMERA_INFO) :
  ASIGetNumOfConnectedCameras drv (device w) = (n, d0) →
  ASIGetCameraProperty drv camera_index d0 = (ASI_SUCCESS, cam_info, d1) →
  ∃ info w',
    get_camera_info drv camera_index w = (Return info, w')
    ∧ (∀ b, b ∈ CameraInfo.supported_bins info
            ↔ ∃ i, (i < 16)%nat ∧ SupportedBins cam_info !! i = Some b
                   ∧ ∀ j, (j ≤ i)%nat → SupportedBins cam_info !! j ≠ Some 0)
    ∧ (∀ t, t ∈ CameraInfo.supported_image_types info
            ↔ ∃ i, (i < 8)%nat
                   ∧ SupportedVideoFormat cam_info !! i = Some (get_native t)
                   ∧ ∀ j, (j ≤ i)%nat →
                          SupportedVideoFormat cam_info !! j ≠ Some ASI_IMG_END).
Proof.
  clear indeterminate. intros H0 H1.
  destruct (get_camera_info_run camera_index w n d0 _ _ d1 H0 H1)
    as (o & Hrun & _ & Hok).
  destruct (Hok eq_refl) as (info & -> & Hb & Ht).
  exists info. eexists. split; [exact Hrun |]. split.
  - intros b. rewrite Hb, insert_bins_spec, elem_of_before_take.
    rewrite elem_of_empty. tauto.
  - intros t. rewrite Ht, insert_image_types_spec, elem_of_before_take.
    rewrite elem_of_empty. tauto.
Qed.

Lemma get_camera_info_two_calls_aux (camera_index : Z) (w : World D) :
  calls (get_camera_info drv camera_index w).2
  = calls w ++ [Call_ASIGetNumOfConnectedCameras;
                Call_ASIGetCameraProperty camera_index].
Proof.
  destruct (ASIGetNumOfConnectedCameras drv (device w)) as [n d0] eqn:H0.
  destruct (ASIGetCameraProperty drv camera_index d0) as [[e ci] d1] eqn:H1.
  destruct (get_camera_info_run camera_index w n d0 e ci d1 H0 H1)
    as (o & Hrun & _). by rewrite Hrun.
Qed.

(** X10. Discovery always makes the same two driver calls, whatever comes
    of them: the enumeration of the connected cameras first, then the
    property query.  A rejected query is thrown as a [CameraException]
    and no catalog is returned. *)
Theorem get_camera_info_two_calls (camera_index : Z) (w : World D) :
  calls (get_camera_info drv camera_index w).2
  = calls w ++ [Call_ASIGetNumOfConnectedCameras;
                Call_ASIGetCameraProperty camera_index]
  ∧ ∀ e cam_info d1,
      ASIGetCameraProperty drv camera_index
        (ASIGetNumOfConnectedCameras drv (device w)).2 = (e, cam_info, d1) →
      e ≠ ASI_SUCCESS →
      (get_camera_info drv camera_index w).1
      = Throw (CameraException3 "failed to read camera infos" camera_index e).
Proof.
  destruct (ASIGetNumOfConnectedCameras drv (device w)) as [n d0] eqn:H0.
  destruct (ASIGetCameraProperty drv camera_index d0) as [[e ci] d1] eqn:H1.
  destruct (get_camera_info_run camera_index w n d0 e ci d1 H0 H1)
    as (o & Hrun & Hfail & _).
  rewrite Hrun. simpl. split; [done |].
  intros e' ci' d1' Heq He. rewrite H1 in Heq. injection Heq as <- <- <-.
  by apply Hfail.
Qed.

(** No discovered catalog supports the bin 0. *)
Lemma get_camera_info_no_zero_bin (camera_index : Z) (w w' : World D)
    (info : CameraInfo.t) :
  get_camera_info drv camera_index w = (Return info, w') →
  0 ∉ CameraInfo.supported_bins info.
Proof.
  intros Hrun.
  destruct (ASIGetNumOfConnectedCameras drv (device w)) as [n d0] eqn:H0.
  destruct (ASIGetCameraProperty drv camera_index d0) as [[e ci] d1] eqn:H1.
  destruct (get_camera_info_run camera_index w n d0 e ci d1 H0 H1)
    as (o & Hrun' & Hfail & Hok).
  rewrite Hrun in Hrun'. injection Hrun' as <- _.
  destruct (decide (e = ASI_SUCCESS)) as [-> | He];
    [| by specialize (Hfail He)].
  destruct (Hok eq_refl) as (info' & [= <-] & Hb & _).
  rewrite Hb, insert_bins_spec, elem_of_before. 
  intros [Hin | (i & Hi & Hj)]; [by apply elem_of_empty in Hin |].
  by apply (Hj i).
Qed.

(** X11. The region built by [ROI::ROI()] (all zero, bin 0) is rejected on
    every discovered catalog, with the bin reason: discovery never records
    the bin 0. *)
Theorem default_roi_rejected_after_discovery (camera_index : Z)
    (w w' : World D) (info : CameraInfo.t) :
  get_camera_info drv camera_index w = (Return info, w') →
  ROI.valid ROI.default info = Throw (ROIException_bin 0).
Proof.
  intros Hrun. apply get_camera_info_no_zero_bin in Hrun.
  unfold ROI.valid. simpl.
  rewrite andb_false_r. simpl. by rewrite bool_decide_eq_false_2.
Qed.

(** ** The registry *)

Lemma keyed_by_name_insert (controls : gmap string ASI_CONTROL_CAPS)
    (caps : ASI_CONTROL_CAPS) :
  keyed_by_name controls →
  keyed_by_name (<[ControlCaps.Name caps := caps]> controls).
Proof.
  intros Hk k caps' Hl.
  destruct (decide (ControlCaps.Name caps = k)) as [<- | Hne].
  - rewrite lookup_insert_eq in Hl. by injection Hl as <-.
  - rewrite lookup_insert_ne in Hl by done. by apply Hk.
Qed.

(** The loop of [read_control_caps], when it returns: its calls and what
    it keeps. *)
Lemma read_control_caps_loop_returns (camera_index : Z) (n : nat) :
  ∀ (control : Z) (controls m : gmap string ASI_CONTROL_CAPS)
    (w w' : World D),
    read_control_caps_loop drv camera_index n control controls w
    = (Return m, w') →
    calls w' = calls w
               ++ ((λ i : nat, Call_ASIGetControlCaps camera_index
                                 (control + Z.of_nat i)) <$> seq 0 n)
    ∧ (keyed_by_name controls → keyed_by_name m)
    ∧ (size m ≤ size controls + n)%nat.
Proof.
  induction n as [| n IH]; intros control controls m w w'; simpl.
  - intros [= <- <-]. rewrite app_nil_r. split; [done |]. split; [done | lia].
  - unfold mbind, M_bind. simpl.
    destruct (ASIGetControlCaps drv camera_index control (device w))
      as [[e caps] d]. simpl.
    case_decide; [discriminate |]. intros Hrun.
    apply IH in Hrun as (Hcalls & Hkeys & Hsize). simpl in Hcalls.
    split; [| split].
    + rewrite Hcalls, <- app_assoc. simpl. rewrite Z.add_0_r.
      do 2 f_equal. rewrite <- fmap_S_seq, <- list_fmap_compose.
      apply list_fmap_ext. intros _ i _. simpl. f_equal. lia.
    + intros Hk. by apply Hkeys, keyed_by_name_insert.
    + destruct (controls !! ControlCaps.Name caps) eqn:Hl.
      * rewrite map_size_insert_Some in Hsize by done. lia.
      * rewrite map_size_insert_None in Hsize by done. lia.
Qed.

Lemma read_control_caps_registry_aux (camera_index : Z) (w w' : World D)
    (m : gmap string ASI_CONTROL_CAPS) :
  read_control_caps drv camera_index ∅ w = (Return m, w') →
  ∃ nb_controls d,
    ASIGetNumOfControls drv camera_index (device w)
    = (ASI_SUCCESS, nb_controls, d)
    ∧ calls w' = calls w
                 ++ Call_ASIGetNumOfControls camera_index
                    :: ((λ i : nat, Call_ASIGetControlCaps camera_index
                                      (Z.of_nat i))
                        <$> seq 0 (Z.to_nat nb_controls))
    ∧ keyed_by_name m
    ∧ (size m ≤ Z.to_nat nb_controls)%nat.
Proof.
  unfold read_control_caps, mbind, M_bind. simpl.
  destruct (ASIGetNumOfControls drv camera_index (device w))
    as [[e nb] d]. simpl.
  destruct (decide (e = ASI_SUCCESS)) as [-> | He];
    [rewrite decide_False by auto | by rewrite decide_True].
  intros Hrun.
  apply read_control_caps_loop_returns in Hrun as (Hcalls & Hkeys & Hsize).
  simpl in Hcalls. exists nb, d. split; [done |]. split; [| split].
  - rewrite Hcalls, <- app_assoc. done.
  - apply Hkeys. intros k caps Hl. by rewrite lookup_empty in Hl.
  - by rewrite map_size_empty in Hsize.
Qed.

(** X12. When [read_control_caps] returns, it has asked the driver for the
    number [nb_controls] of controls and then for the descriptor of each
    index from 0 to [nb_controls - 1], in that order and nothing else; every
    key of the registry is the name of the descriptor stored under it, and
    the registry has at most [nb_controls] entries (descriptors of the same
    name replace one another). *)
Theorem read_control_caps_registry (camera_index : Z) (w w' : World D)
    (m : gmap string ASI_CONTROL_CAPS) :
  read_control_caps drv camera_index ∅ w = (Return m, w') →
  ∃ nb_controls d,
    ASIGetNumOfControls drv camera_index (device w)
    = (ASI_SUCCESS, nb_controls, d)
    ∧ calls w' = calls w
                 ++ Call_ASIGetNumOfControls camera_index
                    :: ((λ i : nat, Call_ASIGetControlCaps camera_index
                                      (Z.of_nat i))
                        <$> seq 0 (Z.to_nat nb_controls))
    ∧ keyed_by_name m
    ∧ (size m ≤ Z.to_nat nb_controls)%nat.
Proof. apply read_control_caps_registry_aux. Qed.

(** X13. A camera that [Camera::Camera] has constructed keeps the index it
    was given, has a registry keyed by the names of its descriptors and a
    catalog without the bin 0.  Its construction started with the
    enumeration, the property query on the index, then the opening and the
    initialisation on the identifier the catalog reports, then the count of
    controls on the index. *)
Theorem Camera_constructed (camera_index : Z) (w w' : World D)
    (this : Camera) :
  Camera_ drv camera_index w = (Return this, w') →
  camera_index_ this = camera_index
  ∧ keyed_by_name (controls_ this)
  ∧ (0 ∉ CameraInfo.supported_bins (camera_info_ this))
  ∧ (∃ more,
       calls w' = calls w
                  ++ [Call_ASIGetNumOfConnectedCameras;
                      Call_ASIGetCameraProperty camera_index;
                      Call_ASIOpenCamera
                        (CameraInfo.camera_id (camera_info_ this));
                      Call_ASIInitCamera
                        (CameraInfo.camera_id (camera_info_ this));
                      Call_ASIGetNumOfControls camera_index]
                  ++ more).
Proof.
  unfold Camera_, mbind, M_bind.
  destruct (get_camera_info drv camera_index w) as [[info | e0 |] w0] eqn:Hinfo;
    try discriminate.
  pose proof (get_camera_info_no_zero_bin _ _ _ _ Hinfo) as Hz.
  pose proof (get_camera_info_two_calls_aux camera_index w) as Hc0.
  rewrite Hinfo in Hc0. simpl in Hc0. simpl.
  destruct (ASIOpenCamera drv (CameraInfo.camera_id info) (device w0))
    as [e1 d1]. simpl.
  case_decide; [discriminate |]. simpl.
  destruct (ASIInitCamera drv (CameraInfo.camera_id info) d1) as [e2 d2]. simpl.
  case_decide; [discriminate |].
  match goal with
  | |- context [read_control_caps drv camera_index ∅ ?w2] =>
      destruct (read_control_caps drv camera_index ∅ w2)
        as [[m | e3 |] w3] eqn:Hreg; try discriminate
  end.
  intros [= <- <-]. simpl.
  apply read_control_caps_registry_aux in Hreg
    as (nb & d & _ & Hcalls & Hkeys & _). simpl in Hcalls.
  repeat split; [done.. |].
  eexists. rewrite Hcalls, Hc0, <- !app_assoc. simpl. reflexivity.
Qed.

(** ** Calls of one kind only *)

Lemma extends_by_refl (P : DriverCall → Prop) (w : World D) :
  extends_by P w w.
Proof. exists []. by rewrite app_nil_r. Qed.

Lemma extends_by_trans (P : DriverCall → Prop) (w1 w2 w3 : World D) :
  extends_by P w1 w2 → extends_by P w2 w3 → extends_by P w1 w3.
Proof.
  intros (k1 & H1 & F1) (k2 & H2 & F2). exists (k1 ++ k2).
  split; [by rewrite H2, H1, app_assoc | by apply Forall_app].
Qed.

Lemma calls_only_bind {A B : Type} (P : DriverCall → Prop) (m : @M D A)
    (f : A → @M D B) :
  calls_only P m → (∀ a, calls_only P (f a)) → calls_only P (m ≫= f).
Proof.
  intros Hm Hf w. unfold mbind, M_bind. specialize (Hm w).
  destruct (m w) as [[a | e |] w']; simpl in *; try done.
  eapply extends_by_trans; [exact Hm | apply Hf].
Qed.

Lemma calls_only_ret {A : Type} (P : DriverCall → Prop) (a : A) :
  calls_only P (mret a : @M D A).
Proof. intros w. apply extends_by_refl. Qed.

Lemma calls_only_throw {A : Type} (P : DriverCall → Prop) (e : exception) :
  calls_only P (@throw D A e).
Proof. intros w. apply extends_by_refl. Qed.

Lemma calls_only_driver_call {A : Type} (P : DriverCall → Prop)
    (c : DriverCall) (f : D → A * D) :
  P c → calls_only P (driver_call c f).
Proof.
  intros Hc w. simpl. destruct (f (device w)). exists [c].
  split; [done | by apply Forall_singleton].
Qed.

(** ** The bulk read *)

Lemma calls_only_get_controllable (this : Camera) (cap : ASI_CONTROL_CAPS) :
  calls_only (control_read (camera_index_ this))
    (get_controllable drv indeterminate this cap).
Proof.
  unfold get_controllable.
  apply calls_only_bind; [intros w; apply extends_by_refl | intros r].
  apply calls_only_bind; [apply calls_only_driver_call; by eexists |].
  intros [e [v a]]. case_decide; [apply calls_only_throw | apply calls_only_ret].
Qed.

(** X14. The bulk read only reads: whatever its outcome, every driver call
    [get_controls] makes is a read of the value of a control of this
    camera; it never writes to the device. *)
Theorem get_controls_only_reads (this : Camera) :
  calls_only (control_read (camera_index_ this))
    (get_controls drv indeterminate this).
Proof.
  unfold get_controls. generalize (∅ : gmap string Controllable.t).
  induction (map_iteration (controls_ this)) as [| it entries IH];
    intros acc; simpl.
  - apply calls_only_ret.
  - apply calls_only_bind; [apply calls_only_get_controllable |].
    intros c. apply IH.
Qed.

(** The loop of the bulk read, when it returns. *)
Lemma get_controls_loop_returns (this : Camera)
    (entries : list (string * ASI_CONTROL_CAPS)) :
  NoDup entries.*1 →
  ∀ (acc controls : gmap string Controllable.t) (w w' : World D),
    get_controls_loop drv indeterminate this entries acc w
    = (Return controls, w') →
    calls w' = calls w
               ++ ((λ it : string * ASI_CONTROL_CAPS,
                      Call_ASIGetControlValue (camera_index_ this)
                        (ControlCaps.ControlType it.2)) <$> entries)
    ∧ (∀ k, k ∉ entries.*1 → controls !! k = acc !! k)
    ∧ (∀ k cap, (k, cap) ∈ entries →
                ∃ c, controls !! k = Some c ∧ reflects c cap).
Proof.
  induction entries as [| [k0 cap0] entries IH];
    intros Hnd acc controls w w'; simpl.
  - intros [= <- <-]. rewrite app_nil_r. split; [done |]. split; [done |].
    intros k cap Hin. by apply elem_of_nil in Hin.
  - apply NoDup_cons in Hnd as [Hk0 Hnd]. unfold mbind, M_bind.
    destruct (ASIGetControlValue drv (camera_index_ this)
                (ControlCaps.ControlType cap0) (device w))
      as [[e [v a]] d] eqn:Hr.
    rewrite (get_controllable_run _ _ _ _ _ _ _ _ _ Hr).
    destruct (decide (e = ASI_SUCCESS)) as [-> | He]; [| discriminate].
    intros Hrun. apply (IH Hnd) in Hrun as (Hcalls & Hother & Hin).
    simpl in Hcalls. split; [| split].
    + by rewrite Hcalls, <- app_assoc.
    + intros k Hk. apply not_elem_of_cons in Hk as [Hne Hk].
      rewrite (Hother k Hk). by apply lookup_insert_ne.
    + intros k cap Hkc. apply elem_of_cons in Hkc as [[= -> ->] | Hkc].
      * eexists. rewrite (Hother k0 Hk0), lookup_insert_eq.
        split; [done |]. by repeat split.
      * by apply Hin.
Qed.

(** X15. When the bulk read returns, it has read every control of the
    registry once, by ascending name, and the map it returns has exactly
    the names of the registry, each with a controllable that carries the
    name, bounds and flags of its descriptor. *)
Theorem get_controls_returns (this : Camera) (w w' : World D)
    (controls : gmap string Controllable.t) :
  get_controls drv indeterminate this w = (Return controls, w') →
  dom controls = dom (controls_ this)
  ∧ (∀ k cap, controls_ this !! k = Some cap →
              ∃ c, controls !! k = Some c ∧ reflects c cap)
  ∧ calls w' = calls w
               ++ ((λ it : string * ASI_CONTROL_CAPS,
                      Call_ASIGetControlValue (camera_index_ this)
                        (ControlCaps.ControlType it.2))
                   <$> map_iteration (controls_ this)).
Proof.
  unfold get_controls. intros Hrun.
  apply get_controls_loop_returns in Hrun as (Hcalls & Hother & Hin);
    [| apply map_iteration_NoDup].
  split; [| split; [| done]].
  - apply set_eq. intros k. rewrite !elem_of_dom.
    destruct (controls_ this !! k) as [cap |] eqn:Hl.
    + apply map_iteration_elem_of, Hin in Hl as (c & -> & _).
      split; by eexists.
    + rewrite Hother, lookup_empty; [done |].
      intros Hk. apply list_elem_of_fmap in Hk as ([k' cap] & -> & Hk).
      apply map_iteration_elem_of in Hk. simpl in Hl. congruence.
  - intros k cap Hl. by apply Hin, map_iteration_elem_of.
Qed.

(** ** Writing a controllable *)

(** X16. [set_control] checks no bound: for a name of the registry and any
    value, inside the bounds of the descriptor or not, once the read of the
    current value has succeeded the value is sent to the driver with the
    auto flag off, and the outcome is the driver's verdict on that
    write. *)
Theorem set_control_forwards_any_value (this : Camera) (control : string)
    (value : Z) (w : World D) (caps : ASI_CONTROL_CAPS) (v : Z) (a : ASI_BOOL)
    (d : D) (e2 : ASI_ERROR_CODE) (d2 : D) :
  controls_ this !! control = Some caps →
  ASIGetControlValue drv (camera_index_ this) (ControlCaps.ControlType caps)
    (device w) = (ASI_SUCCESS, (v, a), d) →
  ASISetControlValue drv (camera_index_ this) (ControlCaps.ControlType caps)
    value ASI_FALSE d = (e2, d2) →
  set_control drv indeterminate this control value w
  = (if decide (e2 = ASI_SUCCESS) then Return tt
     else Throw (CameraException3
                   ("failed to set values for controllable: " +:+ control)
                   (camera_index_ this) e2),
     logged
       (logged w (Call_ASIGetControlValue (camera_index_ this)
                    (ControlCaps.ControlType caps)) d)
       (Call_ASISetControlValue (camera_index_ this)
          (ControlCaps.ControlType caps) value ASI_FALSE) d2).
Proof.
  intros Hl Hr Hw. unfold set_control, get_control_caps, mbind, M_bind.
  rewrite Hl. simpl. rewrite (get_controllable_run _ _ _ _ _ _ _ _ _ Hr).
  rewrite decide_True by done. simpl. rewrite Hw. simpl.
  destruct (decide (e2 = ASI_SUCCESS)) as [-> | He2].
  - by rewrite decide_False by auto.
  - by rewrite decide_True.
Qed.

(** ** Batch configuration *)

Lemma configure_loop_app (this : Camera)
    (l1 l2 : list (string * Controllable.t)) (w : World D) :
  configure_loop drv indeterminate this (l1 ++ l2) w
  = match configure_loop drv indeterminate this l1 w with
    | (Return _, w1) => configure_loop drv indeterminate this l2 w1
    | other => other
    end.
Proof.
  revert w. induction l1 as [| it l1 IH]; intros w; simpl; [done |].
  unfold mbind, M_bind.
  match goal with
  | |- context [(if ?b then ?x else ?y) w] =>
      destruct ((if b then x else y) w) as [[[] | e |] w1]; try done
  end.
Qed.

Lemma configure_loop_not_writable (this : Camera)
    (entries : list (string * Controllable.t)) (w : World D) :
  (∀ it, it ∈ entries → Controllable.is_writable it.2 = false) →
  configure_loop drv indeterminate this entries w = (Return tt, w).
Proof.
  induction entries as [| it entries IH]; intros Hnw; simpl; [done |].
  unfold mbind, M_bind. rewrite (Hnw it) by (apply elem_of_cons; by left).
  simpl. apply IH. intros it' Hin. apply Hnw, elem_of_cons. by right.
Qed.

(** X17. [configure] applies nothing when the region is invalid: the
    exception of [ROI::valid] is thrown, no driver call is made and no
    controllable of the map is touched. *)
Theorem configure_invalid_roi_applies_nothing (this : Camera) (roi : ROI.t)
    (controllables : gmap string Controllable.t) (w : World D)
    (e : exception) :
  ROI.valid roi (camera_info_ this) = Throw e →
  configure drv indeterminate this roi controllables w = (Throw e, w).
Proof.
  intros Hv. unfold configure, set_roi, mbind, M_bind. simpl. by rewrite Hv.
Qed.

(** X18. [configure] skips the entries that are not marked writable
    without any driver call: with a map of such entries only, it does what
    [set_roi] alone does. *)
Theorem configure_skips_not_writable (this : Camera) (roi : ROI.t)
    (controllables : gmap string Controllable.t) (w : World D) :
  (∀ k c, controllables !! k = Some c → Controllable.is_writable c = false) →
  configure drv indeterminate this roi controllables w
  = set_roi drv this roi w.
Proof.
  intros Hnw. unfold configure, mbind, M_bind.
  destruct (set_roi drv this roi w) as [[[] | e |] w1]; try done.
  apply configure_loop_not_writable. intros [k c] Hin.
  apply map_iteration_elem_of in Hin. by apply (Hnw k).
Qed.

(** X19. [configure] has no rollback.  Its loop over two runs of entries
    is the loop over the first followed, if that returned, by the loop over
    the second from the world the first left; when the first throws, the
    second is not started, and when the second throws, what the first
    applied stays applied. *)
Theorem configure_loop_sequences (this : Camera)
    (l1 l2 : list (string * Controllable.t)) (w : World D) :
  configure_loop drv indeterminate this (l1 ++ l2) w
  = match configure_loop drv indeterminate this l1 w with
    | (Return _, w1) => configure_loop drv indeterminate this l2 w1
    | other => other
    end.
Proof. apply configure_loop_app. Qed.

(** ** Polling and capture *)

(** A poll that the driver answers with success. *)
Lemma get_exposition_status_run (this : Camera) (w : World D)
    (s : ASI_EXPOSURE_STATUS) (d : D) :
  ASIGetExpStatus drv (camera_index_ this) (device w) = (ASI_SUCCESS, s, d) →
  get_exposition_status drv this w
  = (Return s, logged w (Call_ASIGetExpStatus (camera_index_ this)) d).
Proof.
  intros Hp. unfold get_exposition_status, mbind, M_bind. simpl.
  rewrite Hp. reflexivity.
Qed.

(** The loop entered with the status it waits to leave. *)
Lemma wait_loop_polls (this : Camera) (current : ASI_EXPOSURE_STATUS)
    (k : nat) :
  ∀ (fuel : nat) (w : World D) (s : ASI_EXPOSURE_STATUS) (d' : D),
    polls_leave drv (camera_index_ this) current k (device w) s d' →
    ((k < fuel)%nat →
     wait_loop drv this fuel current current w
     = (Return s,
        {| device := d';
           calls := calls w
                    ++ replicate (S k)
                         (Call_ASIGetExpStatus (camera_index_ this)) |}))
    ∧ ((fuel ≤ k)%nat →
       (wait_loop drv this fuel current current w).1 = OutOfFuel).
Proof.
  induction k as [| k IH]; intros fuel w s d' Hp; inversion Hp; subst.
  - split; [| intros Hle; replace fuel with 0%nat by lia; simpl;
               by rewrite decide_True].
    intros Hlt. destruct fuel as [| fuel]; [lia |]. simpl.
    rewrite decide_True by done. unfold mbind, M_bind. simpl.
    rewrite (get_exposition_status_run this w s d') by done.
    destruct fuel; simpl; by rewrite decide_False.
  - destruct fuel as [| fuel].
    { split; [lia |]. intros _. simpl. by rewrite decide_True. }
    simpl. rewrite decide_True by done. unfold mbind, M_bind. simpl.
    rewrite (get_exposition_status_run this w current d1) by done.
    destruct (IH fuel
                (logged w (Call_ASIGetExpStatus (camera_index_ this)) d1)
                s d') as [Hret Hout]; [done |].
    split.
    + intros Hlt. rewrite Hret by lia. simpl. by rewrite <- app_assoc.
    + intros Hle. apply Hout. lia.
Qed.

Lemma wait_for_status_change_polls (this : Camera)
    (current : ASI_EXPOSURE_STATUS) (k fuel : nat) (w : World D)
    (s : ASI_EXPOSURE_STATUS) (d' : D) :
  polls_leave drv (camera_index_ this) current k (device w) s d' →
  ((k ≤ fuel)%nat →
   wait_for_status_change drv this fuel current w
   = (Return s,
      {| device := d';
         calls := calls w
                  ++ replicate (S k)
                       (Call_ASIGetExpStatus (camera_index_ this)) |}))
  ∧ ((fuel < k)%nat →
     (wait_for_status_change drv this fuel current w).1 = OutOfFuel).
Proof.
  intros Hp. unfold wait_for_status_change, mbind, M_bind.
  inversion Hp; subst.
  - rewrite (get_exposition_status_run this w s d') by done.
    split; [| lia]. intros _. destruct fuel; simpl; by rewrite decide_False.
  - rewrite (get_exposition_status_run this w current d1) by done.
    destruct (wait_loop_polls this current k0 fuel
                (logged w (Call_ASIGetExpStatus (camera_index_ this)) d1)
                s d') as [Hret Hout]; [done |].
    split.
    + intros Hle. rewrite Hret by lia. simpl. by rewrite <- app_assoc.
    + intros Hlt. apply Hout. lia.
Qed.

(** X20. [wait_for_status_change] polls until the status changes: if the
    device reports the awaited status [k] times and then another status
    [s], every poll succeeding, the call returns [s] after exactly [k + 1]
    polls and no other driver call.  In the model this needs a budget of
    [k] iterations; with less the budget is exhausted, never a wrong
    answer. *)
Theorem wait_for_status_change_returns (this : Camera)
    (current : ASI_EXPOSURE_STATUS) (k fuel : nat) (w : World D)
    (s : ASI_EXPOSURE_STATUS) (d' : D) :
  polls_leave drv (camera_index_ this) current k (device w) s d' →
  ((k ≤ fuel)%nat →
   wait_for_status_change drv this fuel current w
   = (Return s,
      {| device := d';
         calls := calls w
                  ++ replicate (S k)
                       (Call_ASIGetExpStatus (camera_index_ this)) |}))
  ∧ ((fuel < k)%nat →
     (wait_for_status_change drv this fuel current w).1 = OutOfFuel).
Proof. apply wait_for_status_change_polls. Qed.

(** X21. A whole exposure.  If the device is idle, accepts the start,
    then leaves the idle status after [k1] idle polls and the working
    status after [k2] working polls with a status other than failed, and
    delivers the data, then [capture] returns with the buffer the driver
    filled, and its driver calls were: the poll, the start, [k1 + 1] polls,
    [k2 + 1] polls, and one data retrieval with the caller's size. *)
Theorem capture_complete_run (this : Camera) (fuel : nat)
    (buffer buffer' : list Byte.byte) (image_size : Z) (w : World D)
    (d0 d1 d2 d3 d4 : D) (k1 k2 : nat) (s1 s2 : ASI_EXPOSURE_STATUS) :
  ASIGetExpStatus drv (camera_index_ this) (device w)
  = (ASI_SUCCESS, ASI_EXP_IDLE, d0) →
  ASIStartExposure drv (camera_index_ this) ASI_FALSE d0 = (ASI_SUCCESS, d1) →
  polls_leave drv (camera_index_ this) ASI_EXP_IDLE k1 d1 s1 d2 →
  polls_leave drv (camera_index_ this) ASI_EXP_WORKING k2 d2 s2 d3 →
  s2 ≠ ASI_EXP_FAILED →
  ASIGetDataAfterExp drv (camera_index_ this) buffer image_size d3
  = (ASI_SUCCESS, buffer', d4) →
  (k1 ≤ fuel)%nat → (k2 ≤ fuel)%nat →
  capture drv this fuel buffer image_size w
  = (Return buffer',
     {| device := d4;
        calls := calls w
                 ++ [Call_ASIGetExpStatus (camera_index_ this);
                     Call_ASIStartExposure (camera_index_ this) ASI_FALSE]
                 ++ replicate (S k1) (Call_ASIGetExpStatus (camera_index_ this))
                 ++ replicate (S k2) (Call_ASIGetExpStatus (camera_index_ this))
                 ++ [Call_ASIGetDataAfterExp (camera_index_ this) image_size]
     |}).
Proof.
  intros Hidle Hstart Hp1 Hp2 Hs2 Hdata Hk1 Hk2.
  unfold capture, check_camera_ready, mbind, M_bind.
  rewrite (get_exposition_status_run this w ASI_EXP_IDLE d0) by done.
  rewrite decide_False by auto. simpl. rewrite Hstart. simpl.
  match goal with
  | |- context [wait_for_status_change drv this fuel ASI_EXP_IDLE ?w1] =>
      destruct (wait_for_status_change_polls this ASI_EXP_IDLE k1 fuel w1
                  s1 d2 Hp1) as [Hret1 _]
  end.
  rewrite (Hret1 Hk1).
  match goal with
  | |- context [wait_for_status_change drv this fuel ASI_EXP_WORKING ?w2] =>
      destruct (wait_for_status_change_polls this ASI_EXP_WORKING k2 fuel w2
                  s2 d3 Hp2) as [Hret2 _]
  end.
  rewrite (Hret2 Hk2). rewrite decide_False by done. simpl.
  rewrite Hdata. simpl. rewrite <- !app_assoc. simpl. reflexivity.
Qed.

Lemma calls_only_get_exposition_status (this : Camera) (size : Z) :
  calls_only (exposure_call (camera_index_ this) size)
    (get_exposition_status drv this).
Proof.
  apply calls_only_bind; [apply calls_only_driver_call; by left |].
  intros [e s]. case_decide; [apply calls_only_throw | apply calls_only_ret].
Qed.

Lemma calls_only_wait_for_status_change (this : Camera) (size : Z)
    (fuel : nat) (current : ASI_EXPOSURE_STATUS) :
  calls_only (exposure_call (camera_index_ this) size)
    (wait_for_status_change drv this fuel current).
Proof.
  apply calls_only_bind; [apply calls_only_get_exposition_status |].
  intros status. revert status.
  induction fuel as [| fuel IH]; intros status; simpl; case_decide;
    try apply calls_only_ret.
  - intros w. apply extends_by_refl.
  - apply calls_only_bind; [apply calls_only_ret | intros _].
    apply calls_only_bind; [apply calls_only_get_exposition_status | done].
Qed.

(** X22. Whatever its outcome, [capture] only makes exposure calls on its
    own camera: status polls, the start of the exposure, the data
    retrieval with the caller's size.  It never reads or writes a control
    or the region of interest. *)
Theorem capture_only_exposure_calls (this : Camera) (fuel : nat)
    (buffer : list Byte.byte) (image_size : Z) :
  calls_only (exposure_call (camera_index_ this) image_size)
    (capture drv this fuel buffer image_size).
Proof.
  unfold capture, check_camera_ready.
  apply calls_only_bind.
  { apply calls_only_bind; [apply calls_only_get_exposition_status |].
    intros s. case_decide; [apply calls_only_throw | apply calls_only_ret]. }
  intros _. apply calls_only_bind.
  { apply calls_only_driver_call. right. by left. }
  intros e. case_decide; [apply calls_only_throw |].
  apply calls_only_bind; [apply calls_only_wait_for_status_change |].
  intros _. apply calls_only_bind; [apply calls_only_wait_for_status_change |].
  intros s. case_decide; [apply calls_only_throw |].
  apply calls_only_bind.
  { apply calls_only_driver_call. right. by right. }
  intros [e' b]. case_decide; [apply calls_only_throw | apply calls_only_ret].
Qed.

(** X23. When [capture] returns, the buffer it leaves is the one the
    driver's data retrieval produced from the caller's buffer and size;
    that retrieval succeeded, was the last driver call, and followed a
    polling that ended with a status that is neither working nor
    failed. *)
Theorem capture_returns_retrieved_data (this : Camera) (fuel : nat)
    (buffer buffer' : list Byte.byte) (image_size : Z) (w w' : World D) :
  capture drv this fuel buffer image_size w = (Return buffer', w') →
  ∃ new_status w1 d,
    exposure_polling drv this fuel w = (Return new_status, w1)
    ∧ new_status ≠ ASI_EXP_WORKING ∧ new_status ≠ ASI_EXP_FAILED
    ∧ ASIGetDataAfterExp drv (camera_index_ this) buffer image_size
        (device w1) = (ASI_SUCCESS, buffer', d)
    ∧ w' = logged w1
             (Call_ASIGetDataAfterExp (camera_index_ this) image_size) d.
Proof.
  rewrite capture_after_polling. unfold mbind, M_bind.
  destruct (exposure_polling drv this fuel w) as [[s | e |] w1] eqn:Hp;
    try discriminate.
  case_decide as Hs; [discriminate |]. simpl.
  destruct (ASIGetDataAfterExp drv (camera_index_ this) buffer image_size
              (device w1)) as [[e b] d] eqn:Hd. simpl.
  destruct (decide (e = ASI_SUCCESS)) as [-> | He];
    [rewrite decide_False by auto | by rewrite decide_True].
  intros [= <- <-]. exists s, w1, d. repeat split; try done.
  revert Hp. unfold exposure_polling, mbind, M_bind.
  destruct (check_camera_ready drv this w) as [[[] | e0 |] w0]; try done.
  destruct (driver_call _ _ w0) as [[e1 | ex1 |] w1']; try done.
  destruct (decide (e1 ≠ ASI_SUCCESS)); [done |].
  destruct (wait_for_status_change drv this fuel ASI_EXP_IDLE w1')
    as [[s2 | ex2 |] w2]; try done.
  apply wait_for_status_change_leaves.
Qed.

End MoreProperties.

(** ** The cells of the report *)

(** X24. A cell that [append_bool] adds to the report has the same width
    for [true] and for [false]: [target_size + 1] characters when
    [target_size] is above 2, and the two characters of the mark alone
    otherwise (as with the default [-1]). *)
Theorem append_bool_width (s : string) (value : bool) (target_size : Z) :
  Z.of_nat (String.length (append_bool s value target_size))
  = Z.of_nat (String.length s) + (if 2 <? target_size then target_size + 1 else 2).
Proof.
  unfold append_bool. destruct (Z.ltb_spec 2 target_size) as [Hlt | Hle].
  - destruct value; rewrite !length_append, length_spaces; simpl; lia.
  - destruct value; rewrite length_append; simpl; lia.
Qed.

(** ** Construction that fails *)

Section ConstructionFailure.
Context {D : Type} (drv : Driver D).

(** X25. When the driver rejects the opening, [Camera::Camera] throws and
    neither initialises the device nor reads its controls; when it rejects
    the initialisation, the constructor throws without reading the
    controls.  Both calls are made on the identifier of the catalog, the
    errors cite the index. *)
Theorem Camera_construction_aborts (camera_index : Z) (w w0 : World D)
    (info : CameraInfo.t) (e1 : ASI_ERROR_CODE) (d1 : D) :
  get_camera_info drv camera_index w = (Return info, w0) →
  ASIOpenCamera drv (CameraInfo.camera_id info) (device w0) = (e1, d1) →
  (e1 ≠ ASI_SUCCESS →
   Camera_ drv camera_index w
   = (Throw (CameraException3 "failed to open the camera" camera_index e1),
      logged w0 (Call_ASIOpenCamera (CameraInfo.camera_id info)) d1))
  ∧ (e1 = ASI_SUCCESS →
     ∀ e2 d2,
       ASIInitCamera drv (CameraInfo.camera_id info) d1 = (e2, d2) →
       e2 ≠ ASI_SUCCESS →
       Camera_ drv camera_index w
       = (Throw (CameraException3 "failed to init the camera" camera_index e2),
          logged
            (logged w0 (Call_ASIOpenCamera (CameraInfo.camera_id info)) d1)
            (Call_ASIInitCamera (CameraInfo.camera_id info)) d2)).
Proof.
  intros Hinfo Hopen. unfold Camera_, mbind, M_bind. rewrite Hinfo. simpl.
  rewrite Hopen. simpl. split.
  - intros He1. by rewrite decide_True.
  - intros -> e2 d2 Hinit He2. simpl. rewrite Hinit. simpl.
    by rewrite decide_True.
Qed.

End ConstructionFailure.

Lemma Camera_construction_aborts_witness :
  Camera_ sim_driver_no_open 0 (sim_world [] ASI_SUCCESS)
  = (Throw (CameraException3 "failed to open the camera" 0
              ASI_ERROR_CAMERA_REMOVED),
     {| device := sim_device [] ASI_SUCCESS;
        calls := [Call_ASIGetNumOfConnectedCameras;
                  Call_ASIGetCameraProperty 0; Call_ASIOpenCamera 0] |}).
Proof.
  apply (proj1 (Camera_construction_aborts sim_driver_no_open 0
                  (sim_world [] ASI_SUCCESS)
                  {| device := sim_device [] ASI_SUCCESS;
                     calls := [Call_ASIGetNumOfConnectedCameras;
                               Call_ASIGetCameraProperty 0] |}
                  asi294 ASI_ERROR_CAMERA_REMOVED (sim_device [] ASI_SUCCESS)
                  ltac:(vm_compute; reflexivity) eq_refl)).
  discriminate.
Defined.

(** ** Further runs on the scripted device *)

Lemma get_camera_info_stops_at_terminators_witness :
  ∃ info w',
    get_camera_info sim_driver 0 (sim_world [] ASI_SUCCESS) = (Return info, w')
    ∧ (∀ b, b ∈ CameraInfo.supported_bins info
            ↔ ∃ i, (i < 16)%nat ∧ SupportedBins sim_camera_info !! i = Some b
                   ∧ ∀ j, (j ≤ i)%nat →
                          SupportedBins sim_camera_info !! j ≠ Some 0)
    ∧ (∀ t, t ∈ CameraInfo.supported_image_types info
            ↔ ∃ i, (i < 8)%nat
                   ∧ SupportedVideoFormat sim_camera_info !! i
                     = Some (get_native t)
                   ∧ ∀ j, (j ≤ i)%nat →
                          SupportedVideoFormat sim_camera_info !! j
                          ≠ Some ASI_IMG_END).
Proof.
  exact (get_camera_info_stops_at_terminators sim_driver 0
           (sim_world [] ASI_SUCCESS) 1 (sim_device [] ASI_SUCCESS)
           (sim_device [] ASI_SUCCESS) sim_camera_info eq_refl eq_refl).
Defined.

Lemma default_roi_rejected_after_discovery_witness :
  ROI.valid ROI.default asi294 = Throw (ROIException_bin 0).
Proof.
  apply (default_roi_rejected_after_discovery sim_driver 0
           (sim_world [] ASI_SUCCESS)
           {| device := sim_device [] ASI_SUCCESS;
              calls := [Call_ASIGetNumOfConnectedCameras;
                        Call_ASIGetCameraProperty 0] |} asi294).
  vm_compute. reflexivity.
Defined.

Lemma read_control_caps_registry_witness :
  ∃ nb_controls d,
    ASIGetNumOfControls sim_driver 0 (device (sim_world [] ASI_SUCCESS))
    = (ASI_SUCCESS, nb_controls, d)
    ∧ calls {| device := sim_device [] ASI_SUCCESS;
               calls := [Call_ASIGetNumOfControls 0;
                         Call_ASIGetControlCaps 0 0;
                         Call_ASIGetControlCaps 0 1;
                         Call_ASIGetControlCaps 0 2] |}
      = calls (sim_world [] ASI_SUCCESS)
        ++ Call_ASIGetNumOfControls 0
           :: ((λ i : nat, Call_ASIGetControlCaps 0 (Z.of_nat i))
               <$> seq 0 (Z.to_nat nb_controls))
    ∧ keyed_by_name (controls_ sim_camera)
    ∧ (size (controls_ sim_camera) ≤ Z.to_nat nb_controls)%nat.
Proof.
  apply (read_control_caps_registry sim_driver 0 (sim_world [] ASI_SUCCESS)).
  vm_compute. reflexivity.
Defined.

Lemma Camera_constructed_witness :
  camera_index_ sim_camera = 0
  ∧ keyed_by_name (controls_ sim_camera)
  ∧ (0 ∉ CameraInfo.supported_bins (camera_info_ sim_camera))
  ∧ (∃ more,
       [Call_ASIGetNumOfConnectedCameras; Call_ASIGetCameraProperty 0;
        Call_ASIOpenCamera 0; Call_ASIInitCamera 0;
        Call_ASIGetNumOfControls 0; Call_ASIGetControlCaps 0 0;
        Call_ASIGetControlCaps 0 1; Call_ASIGetControlCaps 0 2]
       = calls (sim_world [] ASI_SUCCESS)
         ++ [Call_ASIGetNumOfConnectedCameras; Call_ASIGetCameraProperty 0;
             Call_ASIOpenCamera (CameraInfo.camera_id (camera_info_ sim_camera));
             Call_ASIInitCamera (CameraInfo.camera_id (camera_info_ sim_camera));
             Call_ASIGetNumOfControls 0]
         ++ more).
Proof.
  apply (Camera_constructed sim_driver 0 (sim_world [] ASI_SUCCESS)
           {| device := sim_device [] ASI_SUCCESS;
              calls := [Call_ASIGetNumOfConnectedCameras;
                        Call_ASIGetCameraProperty 0;
                        Call_ASIOpenCamera 0; Call_ASIInitCamera 0;
                        Call_ASIGetNumOfControls 0; Call_ASIGetControlCaps 0 0;
                        Call_ASIGetControlCaps 0 1;
                        Call_ASIGetControlCaps 0 2] |} sim_camera).
  vm_compute. reflexivity.
Defined.

Lemma get_controls_returns_witness :
  dom sim_controls = dom (controls_ sim_camera)
  ∧ (∀ k cap, controls_ sim_camera !! k = Some cap →
              ∃ c, sim_controls !! k = Some c ∧ reflects c cap)
  ∧ [Call_ASIGetControlValue 0 9; Call_ASIGetControlValue 0 0;
     Call_ASIGetControlValue 0 8]
    = calls (sim_world [] ASI_SUCCESS)
      ++ ((λ it : string * ASI_CONTROL_CAPS,
             Call_ASIGetControlValue (camera_index_ sim_camera)
               (ControlCaps.ControlType it.2))
          <$> map_iteration (controls_ sim_camera)).
Proof.
  apply (get_controls_returns sim_driver sim_indeterminate sim_camera
           (sim_world [] ASI_SUCCESS)
           {| device := sim_device [] ASI_SUCCESS;
              calls := [Call_ASIGetControlValue 0 9;
                        Call_ASIGetControlValue 0 0;
                        Call_ASIGetControlValue 0 8] |} sim_controls).
  vm_compute. reflexivity.
Defined.

(** "Gain" is bounded by 570; 100000 is sent all the same. *)
Lemma set_control_forwards_any_value_witness :
  set_control sim_driver sim_indeterminate sim_camera "Gain" 100000
    (sim_world [] ASI_SUCCESS)
  = (Return tt,
     {| device := {| sim_statuses := []; sim_read_error := ASI_SUCCESS;
                     sim_value := 100000;
                     sim_frame := sim_frame (sim_device [] ASI_SUCCESS) |};
        calls := [Call_ASIGetControlValue 0 0;
                  Call_ASISetControlValue 0 0 100000 ASI_FALSE] |}).
Proof.
  apply (set_control_forwards_any_value sim_driver sim_indeterminate
           sim_camera "Gain" 100000 (sim_world [] ASI_SUCCESS) caps_gain 120
           ASI_FALSE (sim_device [] ASI_SUCCESS) ASI_SUCCESS);
    vm_compute; reflexivity.
Defined.

Lemma configure_invalid_roi_applies_nothing_witness :
  configure sim_driver sim_indeterminate sim_camera (roi_full 4145)
    sim_controls (sim_world [] ASI_SUCCESS)
  = (Throw (ROIException_modulo 4145 8 true), sim_world [] ASI_SUCCESS).
Proof.
  apply (configure_invalid_roi_applies_nothing sim_driver sim_indeterminate
           sim_camera (roi_full 4145) sim_controls (sim_world [] ASI_SUCCESS)).
  vm_compute. reflexivity.
Defined.

Lemma configure_skips_not_writable_witness :
  configure sim_driver sim_indeterminate sim_camera (roi_full 4144)
    sim_controls_read_only (sim_world [] ASI_SUCCESS)
  = set_roi sim_driver sim_camera (roi_full 4144) (sim_world [] ASI_SUCCESS).
Proof.
  apply (configure_skips_not_writable sim_driver sim_indeterminate sim_camera
           (roi_full 4144) sim_controls_read_only (sim_world [] ASI_SUCCESS)).
  intros k c Hl. unfold sim_controls_read_only in Hl.
  apply lookup_singleton_Some in Hl as [_ <-]. reflexivity.
Defined.

Lemma sim_polls_leave_idle :
  polls_leave sim_driver 0 ASI_EXP_IDLE 1
    (sim_device [ASI_EXP_IDLE; ASI_EXP_WORKING; ASI_EXP_WORKING;
                 ASI_EXP_SUCCESS] ASI_SUCCESS)
    ASI_EXP_WORKING
    (sim_device [ASI_EXP_WORKING; ASI_EXP_SUCCESS] ASI_SUCCESS).
Proof.
  eapply polls_leave_later; [reflexivity |].
  apply polls_leave_now; [reflexivity | discriminate].
Defined.

Lemma sim_polls_leave_working :
  polls_leave sim_driver 0 ASI_EXP_WORKING 1
    (sim_device [ASI_EXP_WORKING; ASI_EXP_SUCCESS] ASI_SUCCESS)
    ASI_EXP_SUCCESS (sim_device [] ASI_SUCCESS).
Proof.
  eapply polls_leave_later; [reflexivity |].
  apply polls_leave_now; [reflexivity | discriminate].
Defined.

Lemma wait_for_status_change_returns_witness :
  wait_for_status_change sim_driver sim_camera 5 ASI_EXP_WORKING
    (sim_world [ASI_EXP_WORKING; ASI_EXP_SUCCESS] ASI_SUCCESS)
  = (Return ASI_EXP_SUCCESS,
     {| device := sim_device [] ASI_SUCCESS;
        calls := [Call_ASIGetExpStatus 0; Call_ASIGetExpStatus 0] |}).
Proof.
  apply (proj1 (wait_for_status_change_returns sim_driver sim_camera
                  ASI_EXP_WORKING 1 5
                  (sim_world [ASI_EXP_WORKING; ASI_EXP_SUCCESS] ASI_SUCCESS)
                  ASI_EXP_SUCCESS (sim_device [] ASI_SUCCESS)
                  sim_polls_leave_working)).
  lia.
Defined.

Lemma capture_complete_run_witness :
  capture sim_driver sim_camera 5 [] 4
    (sim_world [ASI_EXP_IDLE; ASI_EXP_IDLE; ASI_EXP_WORKING; ASI_EXP_WORKING;
                ASI_EXP_SUCCESS] ASI_SUCCESS)
  = (Return (sim_frame (sim_device [] ASI_SUCCESS)),
     {| device := sim_device [] ASI_SUCCESS;
        calls := [Call_ASIGetExpStatus 0; Call_ASIStartExposure 0 ASI_FALSE;
                  Call_ASIGetExpStatus 0; Call_ASIGetExpStatus 0;
                  Call_ASIGetExpStatus 0; Call_ASIGetExpStatus 0;
                  Call_ASIGetDataAfterExp 0 4] |}).
Proof.
  apply (capture_complete_run sim_driver sim_camera 5 []
           (sim_frame (sim_device [] ASI_SUCCESS)) 4
           (sim_world [ASI_EXP_IDLE; ASI_EXP_IDLE; ASI_EXP_WORKING;
                       ASI_EXP_WORKING; ASI_EXP_SUCCESS] ASI_SUCCESS)
           (sim_device [ASI_EXP_IDLE; ASI_EXP_WORKING; ASI_EXP_WORKING;
                        ASI_EXP_SUCCESS] ASI_SUCCESS)
           (sim_device [ASI_EXP_IDLE; ASI_EXP_WORKING; ASI_EXP_WORKING;
                        ASI_EXP_SUCCESS] ASI_SUCCESS)
           (sim_device [ASI_EXP_WORKING; ASI_EXP_SUCCESS] ASI_SUCCESS)
           (sim_device [] ASI_SUCCESS) (sim_device [] ASI_SUCCESS)
           1%nat 1%nat ASI_EXP_WORKING ASI_EXP_SUCCESS
           eq_refl eq_refl sim_polls_leave_idle sim_polls_leave_working);
    [discriminate | reflexivity | lia | lia].
Defined.

Lemma capture_returns_retrieved_data_witness :
  ∃ new_status w1 d,
    exposure_polling sim_driver sim_camera 5
      (sim_world [ASI_EXP_IDLE; ASI_EXP_WORKING; ASI_EXP_SUCCESS] ASI_SUCCESS)
    = (Return new_status, w1)
    ∧ new_status ≠ ASI_EXP_WORKING ∧ new_status ≠ ASI_EXP_FAILED
    ∧ ASIGetDataAfterExp sim_driver (camera_index_ sim_camera) [] 4 (device w1)
      = (ASI_SUCCESS, sim_frame (sim_device [] ASI_SUCCESS), d)
    ∧ {| device := sim_device [] ASI_SUCCESS;
         calls := [Call_ASIGetExpStatus 0; Call_ASIStartExposure 0 ASI_FALSE;
                   Call_ASIGetExpStatus 0; Call_ASIGetExpStatus 0;
                   Call_ASIGetDataAfterExp 0 4] |}
      = logged w1 (Call_ASIGetDataAfterExp (camera_index_ sim_camera) 4) d.
Proof.
  apply (capture_returns_retrieved_data sim_driver sim_camera 5 []
           (sim_frame (sim_device [] ASI_SUCCESS)) 4
           (sim_world [ASI_EXP_IDLE; ASI_EXP_WORKING; ASI_EXP_SUCCESS]
              ASI_SUCCESS)).
  vm_compute. reflexivity.
Defined.
